(** * BanMonitor: the watchlist store, the status probe and the monitoring loop

    A shallow embedding of [src/app.py] (class [RedditBanMonitor]).

    - The watchlist [monitored_users] is a Python [set] of strings: a [gset string].
    - The status map [user_status] is a Python [dict] from strings to booleans:
      a [gmap string bool].
    - Python strings are kept as Rocq strings.  The only string operation of the
      program that matters here is [str.replace] with ASCII patterns; on UTF-8
      bytes it replaces the same occurrences as on code points.
    - The outcome of every HTTP request is an input of the model: the functions
      take the outcome of the token request and of the lookup as arguments.
    - Everything the program sends out (requests, notifications, replies) is
      recorded in a list of events.
    - The program is a set of asyncio tasks on one event loop.  A task runs alone
      until its next [await]; the model has one step per such segment.  A request
      and the reading of its body are one suspension: nothing the program does
      between the two touches its state.
    - Cancellation of the monitoring task (shutdown) is not part of the model. *)

From stdpp Require Import gmap strings list fin_maps sorting.
From Stdlib Require Import ZArith Ascii.

Open Scope Z_scope.

(** ** Python's [str.replace] *)

Module PyStr.

Fixpoint startswith (p s : string) : bool :=
  match p with
  | EmptyString => true
  | String a p' =>
      match s with
      | EmptyString => false
      | String b s' => if Ascii.eqb a b then startswith p' s' else false
      end
  end.

(** [replace_from old new skip s]: the scan of [s] from left to right;
    [skip] counts the characters of a match that are still to be dropped.
    Occurrences are found left to right and do not overlap. *)
Fixpoint replace_from (old new : string) (skip : nat) (s : string) : string :=
  match s with
  | EmptyString => EmptyString
  | String c s' =>
      match skip with
      | S k => replace_from old new k s'
      | O =>
          if startswith old s
          then String.append new (replace_from old new (Nat.pred (String.length old)) s')
          else String c (replace_from old new O s')
      end
  end.

(** With an empty pattern Python puts [new] before every character and at the end. *)
Fixpoint interleave (new s : string) : string :=
  match s with
  | EmptyString => new
  | String c s' => String.append new (String c (interleave new s'))
  end.

Definition replace (old new s : string) : string :=
  match old with
  | EmptyString => interleave new s
  | String _ _ => replace_from old new O s
  end.

Fixpoint contains_char (c : ascii) (s : string) : bool :=
  match s with
  | EmptyString => false
  | String b s' => if Ascii.eqb c b then true else contains_char c s'
  end.

End PyStr.

(** [context.args[0].replace('u/', '').replace('/u/', '')], lines 261 and 285. *)
Definition normalize_username (arg : string) : string :=
  PyStr.replace "/u/" "" (PyStr.replace "u/" "" arg).

(** ** State of a [RedditBanMonitor] object *)

Record State := mkState {
  monitored_users : gset string;
  user_status : gmap string bool;      (* True = active, False = banned *)
  reddit_token : option string         (* None is Python's None *)
}.

(** The object after [__init__]; [tok] is [None] before [initialize] has run and
    the token it fetched afterwards. *)
Definition initial_state (tok : option string) : State :=
  mkState ∅ ∅ tok.

Definition with_token (st : State) (tok : string) : State :=
  mkState (monitored_users st) (user_status st) (Some tok).

(** [self.user_status[username] = is_active] *)
Definition store_status (st : State) (username : string) (is_active : bool) : State :=
  mkState (monitored_users st) (<[username := is_active]> (user_status st)) (reddit_token st).

(** [self.user_status.get(username, True)] *)
Definition status_or_true (st : State) (username : string) : bool :=
  default true (user_status st !! username).

(** Truth value of [self.reddit_token]: [None] and the empty string are false. *)
Definition token_truthy (st : State) : bool :=
  match reddit_token st with
  | None => false
  | Some t => negb (String.eqb t "")
  end.

(** ** Events and outcomes *)

Inductive kind := Banned | Restored.

Inductive reply :=
  | ReplyUsageAdd
  | ReplyUsageRemove
  | ReplyAlreadyMonitored (username : string)
  | ReplyAdded (username : string) (is_active : bool)
  | ReplyNotMonitored (username : string)
  | ReplyRemoved (username : string)
  | ReplyStatus (total active banned : Z).

Inductive event :=
  | EvTokenRequest                           (* POST .../api/v1/access_token *)
  | EvLookup (username : string)             (* GET .../user/<username>/about *)
  | EvNotify (k : kind) (username : string)  (* _send_telegram_message *)
  | EvReply (r : reply)                      (* update.message.reply_text *)
  | EvLogError (username : string).          (* logger.error at line 230 *)

(** What [session.post] gives to [_get_reddit_token]: a response with its status
    code and, when the body is JSON with an ['access_token'], that token; or an
    exception of the transport. *)
Inductive post_outcome :=
  | PostResponse (status : Z) (access_token : option string)
  | PostException.

(** What [session.get] gives to [_check_user_status]: a response with its status
    code and whether [response.json()] succeeds on it, or an exception. *)
Inductive get_outcome :=
  | GetResponse (status : Z) (json_ok : bool)
  | GetException.

Inductive outcome (A : Type) :=
  | Returned (a : A)
  | Raised.
Arguments Returned {A} a.
Arguments Raised {A}.

(** ** The status source client *)

(** [_get_reddit_token], lines 128-150: every failure is logged and raised again. *)
Definition _get_reddit_token (st : State) (post : post_outcome) : State * outcome unit :=
  match post with
  | PostResponse status body =>
      if status =? 200 then
        match body with
        | Some tok => (with_token st tok, Returned tt)
        | None => (st, Raised)
        end
      else (st, Raised)
  | PostException => (st, Raised)
  end.

(** The body of the [try] of [_check_user_status], lines 163-179. *)
Definition lookup_result (get : get_outcome) : bool :=
  match get with
  | GetResponse status json_ok =>
      if status =? 200 then
        (if json_ok then true else true (* json() raised: except branch, line 179 *))
      else if status =? 404 then false
      else true
  | GetException => true
  end.

(** [_check_user_status], lines 152-179.  The token request is outside the [try]:
    when it raises, the check raises. *)
Definition _check_user_status (st : State) (username : string)
    (post : post_outcome) (get : get_outcome) : State * list event * outcome bool :=
  let '(st1, evs1, r1) :=
    if token_truthy st then (st, [], Returned tt)
    else let '(s, r) := _get_reddit_token st post in (s, [EvTokenRequest], r) in
  match r1 with
  | Raised => (st1, evs1, Raised)
  | Returned _ => (st1, (evs1 ++ [EvLookup username])%list, Returned (lookup_result get))
  end.

Definition is_lookup (e : event) : bool :=
  match e with EvLookup _ => true | _ => false end.

Definition is_token_request (e : event) : bool :=
  match e with EvTokenRequest => true | _ => false end.

Definition is_notify (e : event) : bool :=
  match e with EvNotify _ _ => true | _ => false end.

Definition count_events (p : event -> bool) (evs : list event) : nat :=
  List.length (List.filter p evs).

(** ** The check as a resumable computation

    [_check_user_status] suspends at its two requests.  [check_begin] runs it up
    to the first [await]; [check_resume] runs it from the result of the awaited
    request to the next [await] or to its end. *)

Inductive check_pc :=
  | AwaitToken      (* in session.post, line 135 *)
  | AwaitLookup.    (* in session.get, line 163 *)

(** What wakes a suspended task up. *)
Inductive wake :=
  | Timer                          (* an asyncio.sleep is over *)
  | PostDone (post : post_outcome)
  | GetDone (get : get_outcome)
  | Sent.                          (* _send_telegram_message has returned *)

Inductive check_progress :=
  | CheckMore (c : check_pc)
  | CheckDone (r : outcome bool).

Definition check_begin (st : State) (username : string) : check_pc * list event :=
  if token_truthy st then (AwaitLookup, [EvLookup username])
  else (AwaitToken, [EvTokenRequest]).

Definition check_resume (st : State) (username : string) (c : check_pc) (w : wake)
    : option (State * list event * check_progress) :=
  match c, w with
  | AwaitToken, PostDone post =>
      match _get_reddit_token st post with
      | (st1, Raised) => Some (st1, [], CheckDone Raised)
      | (st1, Returned _) => Some (st1, [EvLookup username], CheckMore AwaitLookup)
      end
  | AwaitLookup, GetDone get => Some (st, [], CheckDone (Returned (lookup_result get)))
  | _, _ => None
  end.

(** ** The monitoring loop, [_monitoring_loop], lines 197-240 *)

Inductive loop_pc :=
  | LoopSleep
      (* at the top of [while True], or in one of the sleeps that lead back to it
         (lines 202, 233) *)
  | LoopCheck (c : check_pc) (username : string) (rest : list string)
      (* in [_check_user_status(username)], line 209; [rest] is what is left of
         the copy of the watchlist taken at line 207 *)
  | LoopSend (username : string) (is_active : bool) (rest : list string)
      (* in [_send_telegram_message], line 215 or 221 *)
  | LoopPause (rest : list string).
      (* in [asyncio.sleep(2)], line 227 *)

(** [self.monitored_users.copy()] as a list.  Python leaves the order in which
    a set is gone through open; the steps of the model take the order of
    [elements].  What is proved below about sweeps over several identifiers is
    proved for every order, with [loop_enter]. *)
Definition snapshot (st : State) : list string :=
  elements (monitored_users st).

(** The [for] statement takes its next identifier, or the sweep is over. *)
Definition loop_next (st : State) (rest : list string) : loop_pc * list event :=
  match rest with
  | [] => (LoopSleep, [])
  | username :: rest' =>
      let '(c, evs) := check_begin st username in (LoopCheck c username rest', evs)
  end.

(** One segment of the loop, from a wake-up to the next [await].
    [None]: this wake-up is not the one the loop is waiting for. *)
Definition _monitoring_loop_step (st : State) (pc : loop_pc) (w : wake)
    : option (State * loop_pc * list event) :=
  match pc, w with
  | LoopSleep, Timer =>
      if decide (monitored_users st = ∅) then Some (st, LoopSleep, [])
      else let '(pc', evs) := loop_next st (snapshot st) in Some (st, pc', evs)
  | LoopCheck c username rest, _ =>
      match check_resume st username c w with
      | None => None
      | Some (st1, evs, CheckMore c') => Some (st1, LoopCheck c' username rest, evs)
      | Some (st1, evs, CheckDone Raised) =>
          (* except Exception, line 229: logged, on to the next identifier *)
          let '(pc', evs') := loop_next st1 rest in
          Some (st1, pc', (evs ++ [EvLogError username] ++ evs')%list)
      | Some (st1, evs, CheckDone (Returned is_active)) =>
          let previous_status := status_or_true st1 username in
          if previous_status && negb is_active then
            Some (st1, LoopSend username is_active rest,
                  (evs ++ [EvNotify Banned username])%list)
          else if negb previous_status && is_active then
            Some (st1, LoopSend username is_active rest,
                  (evs ++ [EvNotify Restored username])%list)
          else
            Some (store_status st1 username is_active, LoopPause rest, evs)
      end
  | LoopSend username is_active rest, Sent =>
      Some (store_status st username is_active, LoopPause rest, [])
  | LoopPause rest, Timer =>
      let '(pc', evs) := loop_next st rest in Some (st, pc', evs)
  | _, _ => None
  end.

(** ** The command handlers *)

(** [_add_user_command] up to the probe, lines 257-265: the events, and the
    username to probe unless the handler has returned. *)
Definition _add_user_command_begin (st : State) (args : list string) : list event * option string :=
  match args with
  | [] => ([EvReply ReplyUsageAdd], None)
  | arg :: _ =>
      let username := normalize_username arg in
      if decide (username ∈ monitored_users st)
      then ([EvReply (ReplyAlreadyMonitored username)], None)
      else ([], Some username)
  end.

(** lines 270-275, after the probe has returned [is_active]. *)
Definition _add_user_command_commit (st : State) (username : string) (is_active : bool) : State * list event :=
  (mkState ({[username]} ∪ monitored_users st)
           (<[username := is_active]> (user_status st))
           (reddit_token st),
   [EvReply (ReplyAdded username is_active)]).

(** [_remove_user_command], lines 279-296; it has no [await] before its reply. *)
Definition _remove_user_command (st : State) (args : list string) : State * list event :=
  match args with
  | [] => (st, [EvReply ReplyUsageRemove])
  | arg :: _ =>
      let username := normalize_username arg in
      if decide (username ∈ monitored_users st) then
        (mkState (monitored_users st ∖ {[username]})
                 (match user_status st !! username with
                  | Some _ => delete username (user_status st)
                  | None => user_status st
                  end)
                 (reddit_token st),
         [EvReply (ReplyRemoved username)])
      else (st, [EvReply (ReplyNotMonitored username)])
  end.

(** The counts of [_status_command], lines 314-321. *)
Definition active_count (st : State) : Z :=
  Z.of_nat (List.length (List.filter (λ status : bool, status) (map_to_list (user_status st)).*2)).

Definition banned_count (st : State) : Z :=
  Z.of_nat (size (user_status st)) - active_count st.

Definition total_monitored (st : State) : Z :=
  Z.of_nat (size (monitored_users st)).

Definition _status_command (st : State) : list event :=
  [EvReply (ReplyStatus (total_monitored st) (active_count st) (banned_count st))].

(** ** The tasks on the event loop *)

(** A handler of [/add] that is waiting for its probe (line 268). *)
Inductive handler_pc :=
  | AddCheck (c : check_pc) (username : string).

Record Sys := mkSys {
  store : State;
  loop : loop_pc;
  handlers : list handler_pc
}.

(** What the event loop can run next: a command that has arrived, a handler
    whose request is done, or the monitoring task. *)
Inductive action :=
  | CmdAdd (args : list string)
  | CmdRemove (args : list string)
  | CmdStatus
  | ResumeHandler (i : nat) (w : wake)
  | ResumeLoop (w : wake).

(** The object when [start] creates the monitoring task. *)
Definition boot (tok : option string) : Sys :=
  mkSys (initial_state tok) LoopSleep [].

Definition handler_step (s : Sys) (i : nat) (w : wake) : option (Sys * list event) :=
  match handlers s !! i with
  | None => None
  | Some (AddCheck c username) =>
      match check_resume (store s) username c w with
      | None => None
      | Some (st1, evs, CheckMore c') =>
          Some (mkSys st1 (loop s) (<[i := AddCheck c' username]> (handlers s)), evs)
      | Some (st1, evs, CheckDone Raised) =>
          (* the exception leaves the handler; nothing was added *)
          Some (mkSys st1 (loop s) (delete i (handlers s)), evs)
      | Some (st1, evs, CheckDone (Returned is_active)) =>
          let '(st2, evs') := _add_user_command_commit st1 username is_active in
          Some (mkSys st2 (loop s) (delete i (handlers s)), (evs ++ evs')%list)
      end
  end.

(** One scheduling step.  An action that is not enabled leaves the system as it is. *)
Definition exec (s : Sys) (a : action) : Sys * list event :=
  match a with
  | CmdAdd args =>
      match _add_user_command_begin (store s) args with
      | (evs, None) => (s, evs)
      | (evs, Some username) =>
          let '(c, evs') := check_begin (store s) username in
          (mkSys (store s) (loop s) (handlers s ++ [AddCheck c username]), (evs ++ evs')%list)
      end
  | CmdRemove args =>
      let '(st1, evs) := _remove_user_command (store s) args in
      (mkSys st1 (loop s) (handlers s), evs)
  | CmdStatus => (s, _status_command (store s))
  | ResumeHandler i w =>
      match handler_step s i w with
      | Some r => r
      | None => (s, [])
      end
  | ResumeLoop w =>
      match _monitoring_loop_step (store s) (loop s) w with
      | Some (st1, pc', evs) => (mkSys st1 pc' (handlers s), evs)
      | None => (s, [])
      end
  end.

(** A schedule, run from left to right; the events of all steps in order. *)
Fixpoint run (s : Sys) (schedule : list action) : Sys * list event :=
  match schedule with
  | [] => (s, [])
  | a :: schedule' =>
      let '(s1, evs) := exec s a in
      let '(s2, evs') := run s1 schedule' in
      (s2, (evs ++ evs')%list)
  end.

(** ** Start-up checks, [_validate_config], lines 46-56

    The environment of the process is a map from names to values; [os.getenv]
    is its lookup. *)

Definition required_vars : list string :=
  ["TELEGRAM_BOT_TOKEN"; "TELEGRAM_CHAT_ID"; "REDDIT_CLIENT_ID"; "REDDIT_CLIENT_SECRET"].

(** [not os.getenv(var)]: the variable is unset, or set to the empty string. *)
Definition env_missing (env : gmap string string) (var : string) : bool :=
  match env !! var with
  | None => true
  | Some v => String.eqb v ""
  end.

Definition missing_vars (env : gmap string string) : list string :=
  List.filter (env_missing env) required_vars.

(** [sep.join(l)] *)
Fixpoint join (sep : string) (l : list string) : string :=
  match l with
  | [] => ""
  | [x] => x
  | x :: l' => x +:+ sep +:+ join sep l'
  end.

(** [None] when the function returns, [Some message] when it raises
    [ValueError(message)]. *)
Definition _validate_config (env : gmap string string) : option string :=
  match missing_vars env with
  | [] => None
  | _ :: _ =>
      Some ("Missing required environment variables: " +:+ join ", " (missing_vars env))
  end.

(** ** [/list], [_list_users_command], lines 298-310 *)

(** The order of Python on strings, code point by code point; on UTF-8 bytes it
    is the order byte by byte. *)
Definition str_le (a b : string) : Prop := String.leb a b = true.

#[global] Instance str_le_dec : RelDecision str_le.
Proof. intros a b. unfold str_le. apply _. Defined.

(** [sorted(l)] for a list without duplicates: the ascending arrangement. *)
Definition sorted (l : list string) : list string := merge_sort str_le l.

(** What the [for] of line 305 goes through, with the status read at line 306. *)
Definition list_rows (st : State) : list (string * bool) :=
  (λ username, (username, status_or_true st username)) <$> sorted (elements (monitored_users st)).

Definition newline : string := String (ascii_of_nat 10) "".

Definition row_text (row : string * bool) : string :=
  "u/" +:+ row.1 +:+ " - " +:+ (if row.2 then "Active" else "Banned") +:+ newline.

(** The text of the reply. *)
Definition _list_users_command (st : State) : string :=
  if decide (monitored_users st = ∅) then "No users are currently being monitored."
  else foldl (λ message row, message +:+ row_text row)
             ("<b>Monitored Users:</b>" +:+ newline +:+ newline) (list_rows st).

(** ** The order of a sweep

    The top of [while True], lines 201-207, with the order in which the [for]
    goes through the copy of the watchlist as an input [todo]. *)
Definition loop_enter (st : State) (todo : list string) : State * loop_pc * list event :=
  if decide (monitored_users st = ∅) then (st, LoopSleep, [])
  else let '(pc', evs) := loop_next st todo in (st, pc', evs).

(** [todo] is the watchlist in some order. *)
Definition arrangement (todo : list string) (st : State) : Prop :=
  todo ≡ₚ elements (monitored_users st).

(** ** A sweep that nothing interrupts

    The wake-ups the loop gets during one sweep over [todo] when a token is held
    and the lookups are answered by [gets], one after the other: the answer of
    the lookup, the return of the notification when one is sent, the end of the
    pause. *)
Fixpoint sweep_wakes (status : gmap string bool) (todo : list string)
    (gets : list get_outcome) : list wake :=
  match todo, gets with
  | username :: todo', get :: gets' =>
      let is_active := lookup_result get in
      let previous_status := default true (status !! username) in
      GetDone get
        :: (if xorb previous_status is_active then [Sent] else [])
        ++ Timer :: sweep_wakes (<[username := is_active]> status) todo' gets'
  | _, _ => []
  end.

(** What such a sweep sends: for each identifier its lookup, then the
    notification of lines 213-222 when the answer differs from the status. *)
Fixpoint sweep_events (status : gmap string bool) (todo : list string)
    (gets : list get_outcome) : list event :=
  match todo, gets with
  | username :: todo', get :: gets' =>
      let is_active := lookup_result get in
      let previous_status := default true (status !! username) in
      EvLookup username
        :: (if previous_status && negb is_active then [EvNotify Banned username]
            else if negb previous_status && is_active then [EvNotify Restored username]
            else [])
        ++ sweep_events (<[username := is_active]> status) todo' gets'
  | _, _ => []
  end.

(** The status map a sweep leaves: every answer stored under its identifier. *)
Definition sweep_statuses (status : gmap string bool) (todo : list string)
    (gets : list get_outcome) : gmap string bool :=
  foldl (λ m '(username, get), <[username := lookup_result get]> m) status (zip todo gets).

(** ** Some fixed inputs *)

Definition ok200 : wake := GetDone (GetResponse 200 true).
Definition nf404 : wake := GetDone (GetResponse 404 false).

(** A started bot with a token, one account on the watchlist, last seen banned. *)
Definition alice_banned : State :=
  mkState {["alice"]} {["alice" := false]} (Some "tok").

(** The same bot with the account last seen active. *)
Definition alice_active : State :=
  mkState {["alice"]} {["alice" := true]} (Some "tok").

(** A bot that holds no token. *)
Definition alice_no_token : State :=
  mkState {["alice"]} {["alice" := false]} None.

(** [/add alice] answered by its probe, then the loop wakes up and takes its
    copy of the watchlist: the sweep is waiting for the lookup of alice. *)
Definition sweep_in_flight : list action :=
  [CmdAdd ["alice"]; ResumeHandler 0 ok200; ResumeLoop Timer].

(** * Properties *)

(** ** The status source client *)

Section StatusCheck.
Variables (st : State) (username : string).

Lemma get_reddit_token_store post :
  monitored_users (fst (_get_reddit_token st post)) = monitored_users st ∧
  user_status (fst (_get_reddit_token st post)) = user_status st.
Proof.
  destruct post as [status [tok|]|]; simpl; try done.
  all: destruct (status =? 200); done.
Qed.

(** Run without any other task in between, the segments of the check are
    [_check_user_status]. *)
Lemma check_segments post get :
  _check_user_status st username post get =
  match check_begin st username with
  | (AwaitLookup, evs) =>
      match check_resume st username AwaitLookup (GetDone get) with
      | Some (st1, evs1, CheckDone r) => (st1, (evs ++ evs1)%list, r)
      | _ => (st, evs, Raised)
      end
  | (AwaitToken, evs) =>
      match check_resume st username AwaitToken (PostDone post) with
      | Some (st1, evs1, CheckMore c) =>
          match check_resume st1 username c (GetDone get) with
          | Some (st2, evs2, CheckDone r) => (st2, (evs ++ evs1 ++ evs2)%list, r)
          | _ => (st1, (evs ++ evs1)%list, Raised)
          end
      | Some (st1, evs1, CheckDone r) => (st1, (evs ++ evs1)%list, r)
      | None => (st, evs, Raised)
      end
  end.
Proof.
  unfold _check_user_status, check_begin.
  destruct (token_truthy st); [done|].
  unfold check_resume.
  destruct (_get_reddit_token st post) as [st1 [[]|]]; done.
Qed.

(** A finished check has come back from the lookup, on the state it found. *)
Lemma check_resume_returned c w st1 evs b :
  check_resume st username c w = Some (st1, evs, CheckDone (Returned b)) →
  c = AwaitLookup ∧ st1 = st ∧ evs = [] ∧ ∃ get, w = GetDone get ∧ b = lookup_result get.
Proof.
  destruct c, w as [|post|get|]; simpl; try done.
  - destruct (_get_reddit_token st post) as [? [[]|]]; done.
  - intros [= <- <- <-]. split_and!; try done. by exists get.
Qed.


Lemma check_resume_store c w st1 evs p :
  check_resume st username c w = Some (st1, evs, p) →
  monitored_users st1 = monitored_users st ∧ user_status st1 = user_status st.
Proof.
  destruct c, w as [|post|get|]; simpl; try done.
  - pose proof (get_reddit_token_store post) as Hs.
    destruct (_get_reddit_token st post) as [st2 [[]|]]; simpl in Hs;
      intros [= <- _ _]; done.
  - by intros [= <- _ _].
Qed.

End StatusCheck.

Lemma lookup_result_false get :
  lookup_result get = false ↔ ∃ json_ok, get = GetResponse 404 json_ok.
Proof.
  split.
  - destruct get as [status j|]; simpl; [|done].
    destruct (Z.eqb_spec status 200); [by destruct j|].
    destruct (Z.eqb_spec status 404); [|done].
    subst. eauto.
  - intros [j ->]. done.
Qed.

(** C6, as the code has it: when a token is held, or none is held and the token
    request is answered 200 with a token, the check sends the lookup, once, and
    returns: HTTP 200 gives true, HTTP 404 gives false, every other code gives
    true, and an exception of the transport in the lookup gives true.  The
    result false comes only from an actual 404.  The check raises exactly when
    no token is held and the token request fails, whatever the failure; it has
    then sent no lookup and changed nothing. *)
Theorem check_user_status_outcomes (st : State) (username : string)
    (post : post_outcome) (get : get_outcome) :
  let '(st', evs, r) := _check_user_status st username post get in
  ((token_truthy st = true ∨ ∃ tok, post = PostResponse 200 (Some tok)) →
     count_events is_lookup evs = 1%nat ∧
     EvLookup username ∈ evs ∧
     match get with
     | GetResponse status _ =>
         (status = 200 → r = Returned true) ∧
         (status = 404 → r = Returned false) ∧
         (status ≠ 200 → status ≠ 404 → r = Returned true)
     | GetException => r = Returned true
     end) ∧
  (r = Returned false → ∃ json_ok, get = GetResponse 404 json_ok) ∧
  (r = Raised ↔
     token_truthy st = false ∧ ∀ tok, post ≠ PostResponse 200 (Some tok)) ∧
  (r = Raised → count_events is_lookup evs = 0%nat ∧ st' = st).
Proof.
  assert (Hcodes : match get with
     | GetResponse status _ =>
         (status = 200 → Returned (lookup_result get) = Returned true) ∧
         (status = 404 → Returned (lookup_result get) = Returned false) ∧
         (status ≠ 200 → status ≠ 404 → Returned (lookup_result get) = Returned true)
     | GetException => Returned (lookup_result get) = Returned true
     end).
  { destruct get as [status j|]; [|done]. simpl.
    split_and!; intros; subst; try done.
    - by destruct j.
    - destruct (Z.eqb_spec status 200); [done|].
      destruct (Z.eqb_spec status 404); done. }
  assert (Hpost : (∃ tok, post = PostResponse 200 (Some tok) ∧
                          _get_reddit_token st post = (with_token st tok, Returned tt)) ∨
                  ((∀ tok, post ≠ PostResponse 200 (Some tok)) ∧
                   _get_reddit_token st post = (st, Raised))).
  { destruct post as [status [tok|]|]; simpl.
    - destruct (Z.eqb_spec status 200) as [->|Hne].
      + left. by exists tok.
      + right. split; [|done]. intros tok' [= ? ?]. done.
    - right. split; [done|]. by destruct (status =? 200).
    - right. done. }
  unfold _check_user_status.
  destruct (token_truthy st) eqn:Htok.
  - simpl. split_and!; try done.
    + intros _. split_and!; [done| |done]. by apply list_elem_of_singleton.
    + intros [= H]. by apply lookup_result_false.
    + split; [done|]. by intros [? _].
  - destruct Hpost as [(tok & -> & ->)|[Hno ->]]; simpl.
    + split_and!; try done.
      * intros _. split_and!; [done| |done].
        apply list_elem_of_further, list_elem_of_here.
      * intros [= H]. by apply lookup_result_false.
      * split; [done|]. intros [_ H]. by destruct (H tok).
    + split_and!; try done.
      intros [[=]|[tok ->]]. by destruct (Hno tok).
Qed.

Lemma check_user_status_outcomes_witness :
  (token_truthy alice_no_token = true ∨
   ∃ tok, PostResponse 200 (Some "fresh") = PostResponse 200 (Some tok)) ∧
  (_check_user_status alice_no_token "alice" (PostResponse 200 (Some "fresh"))
     (GetResponse 404 false)).2 = Returned false.
Proof.
  assert (H : token_truthy alice_no_token = true ∨
              ∃ tok, PostResponse 200 (Some "fresh") = PostResponse 200 (Some tok)).
  { right. by exists "fresh". }
  split; [exact H|].
  pose proof (check_user_status_outcomes alice_no_token "alice"
                (PostResponse 200 (Some "fresh")) (GetResponse 404 false)) as Ht.
  destruct (_check_user_status alice_no_token "alice" (PostResponse 200 (Some "fresh"))
              (GetResponse 404 false)) as [[st' evs] r].
  destruct Ht as [Ht _]. destruct (Ht H) as (_ & _ & _ & H404 & _).
  exact (H404 eq_refl).
Defined.

(** C6, counterexample: no token is held and the token request fails with an
    exception of the transport.  The check does not return true: it raises,
    before any lookup. *)
Lemma token_transport_error_raises :
  _check_user_status alice_no_token "alice" PostException (GetResponse 200 true)
    = (alice_no_token, [EvTokenRequest], Raised) ∧
  (_check_user_status alice_no_token "alice" PostException (GetResponse 200 true)).2
    ≠ Returned true.
Proof. split; [reflexivity|]. vm_compute. discriminate. Qed.

Lemma count_events_app p (l1 l2 : list event) :
  count_events p (l1 ++ l2) = (count_events p l1 + count_events p l2)%nat.
Proof. unfold count_events. by rewrite List.filter_app, length_app. Qed.

Lemma count_events_none p (evs : list event) :
  count_events p evs = 0%nat ↔ ∀ e, e ∈ evs → p e = false.
Proof.
  unfold count_events. induction evs as [|e evs IH]; simpl.
  - split; [|done]. intros _ e H. by apply not_elem_of_nil in H.
  - destruct (p e) eqn:Hp; simpl.
    + split; [done|]. intros H. specialize (H e (list_elem_of_here _ _)). congruence.
    + rewrite IH. split.
      * intros H e' [->|H']%elem_of_cons; auto.
      * intros H e' H'. apply H. by apply list_elem_of_further.
Qed.

(** C7, as the code has it: with no token held the check first requests one,
    stores it and then issues the lookup; with a token held it issues the lookup
    and nothing else, and its result is the one of that lookup whatever the
    response code, 401 included: no second token request, no second lookup. *)
Theorem check_authenticates_on_first_use_only (st : State) (username : string)
    (post : post_outcome) (get : get_outcome) :
  let '(st', evs, r) := _check_user_status st username post get in
  (token_truthy st = false →
     ∃ evs', evs = EvTokenRequest :: evs' ∧ count_events is_token_request evs = 1%nat) ∧
  (token_truthy st = false → ∀ tok, post = PostResponse 200 (Some tok) →
     reddit_token st' = Some tok ∧ evs = [EvTokenRequest; EvLookup username] ∧
     r = Returned (lookup_result get)) ∧
  (token_truthy st = true →
     st' = st ∧ evs = [EvLookup username] ∧ r = Returned (lookup_result get)) ∧
  (count_events is_lookup evs ≤ 1)%nat ∧
  (count_events is_token_request evs ≤ 1)%nat.
Proof.
  unfold _check_user_status.
  destruct (token_truthy st) eqn:Htok; simpl.
  - split_and!; try done. all: cbv; lia.
  - destruct (_get_reddit_token st post) as [st1 [[]|]] eqn:E; simpl.
    all: split_and!; try done; try (cbv; lia).
    all: try (intros _; eexists; split; [done|by cbv]).
    all: intros _ tok ->; simpl in E; by simplify_eq.
Qed.

(** C7, counterexample: a token is held and the lookup is answered 401 (the token
    has expired).  The check requests no new token and does not repeat the
    lookup; it returns true. *)
Lemma expired_token_is_not_refreshed :
  _check_user_status alice_banned "alice" (PostResponse 200 (Some "fresh")) (GetResponse 401 false)
    = (alice_banned, [EvLookup "alice"], Returned true) ∧
  ¬ (EvTokenRequest ∈ [EvLookup "alice"] ∧
     count_events is_lookup [EvLookup "alice"] = 2%nat).
Proof.
  split; [reflexivity|].
  intros [_ H]. vm_compute in H. discriminate.
Qed.

(** ** The command arguments *)

Example replace_overlapping : PyStr.replace "aa" "b" "aaa" = "ba".
Proof. reflexivity. Qed.

Example replace_rescans_nothing : PyStr.replace "u/" "" "uu//" = "u/".
Proof. reflexivity. Qed.

Example replace_empty_pattern : PyStr.replace "" "-" "ab" = "-a-b-".
Proof. reflexivity. Qed.

Example normalize_u_prefix : normalize_username "u/alice" = "alice".
Proof. reflexivity. Qed.

Section Replace.
Import PyStr.

Lemma startswith_contains c p s :
  contains_char c p = true → startswith p s = true → contains_char c s = true.
Proof.
  revert s. induction p as [|a p IH]; intros s; simpl; [done|].
  destruct s as [|b s]; [done|]. simpl.
  destruct (Ascii.eqb_spec a b) as [->|Hab]; [|done].
  destruct (Ascii.eqb c b); [done|]. apply IH.
Qed.

(** A pattern with a character that the string does not have is not found. *)
Lemma replace_absent c old new s :
  contains_char c old = true → contains_char c s = false → replace old new s = s.
Proof.
  intros Hold Hs. destruct old as [|a old]; [done|].
  unfold replace. set (p := String a old) in *. clearbody p.
  induction s as [|b s IH]; [done|].
  simpl. destruct (startswith p (String b s)) eqn:Hp.
  - apply (startswith_contains c) in Hp; [congruence|done].
  - f_equal. apply IH. simpl in Hs. by destruct (Ascii.eqb c b).
Qed.

(** An argument without a slash is taken as it is. *)
Lemma normalize_plain s :
  contains_char "/"%char s = false → normalize_username s = s.
Proof.
  intros H. unfold normalize_username.
  rewrite (replace_absent "/"%char "u/" "" s) by done.
  by apply (replace_absent "/"%char).
Qed.

(** [u/name]: the prefix is stripped when the name has no slash. *)
Lemma normalize_prefixed s :
  contains_char "/"%char s = false → normalize_username (String "u"%char (String "/"%char s)) = s.
Proof.
  intros H. unfold normalize_username.
  replace (replace "u/" "" (String "u"%char (String "/"%char s))) with (replace "u/" "" s).
  - by apply normalize_plain.
  - unfold replace. simpl. by destruct s.
Qed.

End Replace.

(** C9, the code at the failing input: for [/u/alice] the first [replace] takes
    the [u/] out of the prefix and leaves the leading slash, so the second
    [replace] finds no [/u/]: the identifier is [/alice], not [alice]. *)
Theorem normalize_slash_u_prefix :
  normalize_username "/u/alice" = "/alice" ∧
  normalize_username "/u/alice" ≠ "alice" ∧
  normalize_username "menu/item" = "menitem".
Proof. split_and!; [reflexivity| |reflexivity]. vm_compute. discriminate. Qed.

(** ** One identifier of a sweep *)

(** C1: when the check of an identifier of the sweep returns [cur], and [prev]
    is the stored status (true when there is none), the loop sends a "banned"
    notification iff [prev] is true and [cur] is false, a "restored" one iff
    [prev] is false and [cur] is true, and none when they are equal; it never
    sends more than one, and only about that identifier. *)
Theorem sweep_transition_notifications (st : State) (c : check_pc) (username : string)
    (rest : list string) (w : wake) (st1 : State) (evs0 : list event) (cur : bool) :
  check_resume st username c w = Some (st1, evs0, CheckDone (Returned cur)) →
  ∃ st' pc' evs,
    _monitoring_loop_step st (LoopCheck c username rest) w = Some (st', pc', evs) ∧
    (EvNotify Banned username ∈ evs ↔ status_or_true st username = true ∧ cur = false) ∧
    (EvNotify Restored username ∈ evs ↔ status_or_true st username = false ∧ cur = true) ∧
    (status_or_true st username = cur → count_events is_notify evs = 0%nat) ∧
    (count_events is_notify evs ≤ 1)%nat ∧
    (∀ k v, EvNotify k v ∈ evs → v = username).
Proof.
  intros H. destruct (check_resume_returned _ _ _ _ _ _ _ H) as (-> & -> & -> & get & -> & ->).
  unfold _monitoring_loop_step. rewrite H. cbn [app].
  destruct (status_or_true st username), (lookup_result get); cbn [andb negb].
  all: eexists _, _, _; split; [reflexivity|].
  all: split_and!; try (cbv; lia); try done.
  all: try (split; [by intros ?%elem_of_nil | by intros []]).
  all: try (split; [by intros ?%list_elem_of_singleton | by intros []]).
  all: try (split; [done | intros _; by apply list_elem_of_singleton]).
  all: try (intros k v ?%elem_of_nil; done).
  all: intros k v ?%list_elem_of_singleton; by simplify_eq.
Qed.

Lemma sweep_transition_notifications_witness :
  check_resume alice_active "alice" AwaitLookup nf404
    = Some (alice_active, [], CheckDone (Returned false)) ∧
  ∃ st' pc' evs,
    _monitoring_loop_step alice_active (LoopCheck AwaitLookup "alice" []) nf404
      = Some (st', pc', evs) ∧
    (EvNotify Banned "alice" ∈ evs ↔ status_or_true alice_active "alice" = true ∧ false = false) ∧
    (EvNotify Restored "alice" ∈ evs ↔ status_or_true alice_active "alice" = false ∧ false = true) ∧
    (status_or_true alice_active "alice" = false → count_events is_notify evs = 0%nat) ∧
    (count_events is_notify evs ≤ 1)%nat ∧
    (∀ k v, EvNotify k v ∈ evs → v = "alice").
Proof.
  split; [reflexivity|].
  apply (sweep_transition_notifications alice_active AwaitLookup "alice" [] nf404
           alice_active [] false).
  reflexivity.
Defined.





(** A lookup that fails in the transport is, for the loop, a lookup answered 200. *)
Lemma lookup_error_is_active (st : State) (username : string) (rest : list string) :
  _monitoring_loop_step st (LoopCheck AwaitLookup username rest) (GetDone GetException)
  = _monitoring_loop_step st (LoopCheck AwaitLookup username rest) ok200.
Proof. reflexivity. Qed.


(** ** The store under any schedule *)

(** Every member of the watchlist has a status. *)
Definition seeded (st : State) : Prop :=
  monitored_users st ⊆ dom (user_status st).

Lemma seeded_store_status st username b : seeded st → seeded (store_status st username b).
Proof.
  unfold seeded, store_status. simpl. rewrite dom_insert_L.
  intros Hs x Hx. apply elem_of_union. auto.
Qed.

Lemma monitoring_loop_step_seeded st pc w st1 pc' evs :
  _monitoring_loop_step st pc w = Some (st1, pc', evs) → seeded st → seeded st1.
Proof.
  intros H Hs. destruct pc as [|c username rest|username b rest|rest]; simpl in H.
  - destruct w; try done. case_decide; [by simplify_eq|].
    destruct (loop_next st (snapshot st)). by simplify_eq.
  - destruct (check_resume st username c w) as [[[st2 evs2] [c'|[b|]]]|] eqn:E; [| | |done].
    + destruct (check_resume_store _ _ _ _ _ _ _ E) as [HM HS].
      simplify_eq. unfold seeded. by rewrite HM, HS.
    + destruct (check_resume_returned _ _ _ _ _ _ _ E) as (_ & -> & _).
      destruct (status_or_true st username && negb b); [by simplify_eq|].
      destruct (negb (status_or_true st username) && b); simplify_eq; [done|].
      by apply seeded_store_status.
    + destruct (check_resume_store _ _ _ _ _ _ _ E) as [HM HS].
      destruct (loop_next st2 rest). simplify_eq. unfold seeded. by rewrite HM, HS.
  - destruct w; try done. simplify_eq. by apply seeded_store_status.
  - destruct w; try done. destruct (loop_next st rest). by simplify_eq.
Qed.

Lemma remove_user_command_seeded st args :
  seeded st → seeded (_remove_user_command st args).1.
Proof.
  intros Hs. unfold _remove_user_command. destruct args as [|arg args]; [done|].
  simpl. case_decide; [|done]. unfold seeded in *. simpl.
  destruct (user_status st !! normalize_username arg) eqn:E.
  - rewrite dom_delete_L.
    intros x [Hx Hne]%elem_of_difference. apply elem_of_difference. auto.
  - intros x [Hx _]%elem_of_difference. auto.
Qed.

Lemma exec_seeded s a : seeded (store s) → seeded (store (exec s a).1).
Proof.
  intros Hs. destruct a as [args|args| |i w|w]; simpl.
  - destruct (_add_user_command_begin (store s) args) as [evs [username|]]; [|done].
    by destruct (check_begin (store s) username).
  - pose proof (remove_user_command_seeded (store s) args Hs) as H.
    by destruct (_remove_user_command (store s) args).
  - done.
  - unfold handler_step. destruct (handlers s !! i) as [[c username]|]; [|done].
    destruct (check_resume (store s) username c w) as [[[st2 evs2] [c'|[b|]]]|] eqn:E; [| | |done].
    all: destruct (check_resume_store _ _ _ _ _ _ _ E) as [HM HS]; simpl.
    1, 3: unfold seeded; by rewrite HM, HS.
    unfold seeded in *. simpl. rewrite dom_insert_L, HM, HS. by apply union_mono_l.
  - destruct (_monitoring_loop_step (store s) (loop s) w) as [[[st1 pc'] evs]|] eqn:E; [|done].
    simpl. by eapply monitoring_loop_step_seeded.
Qed.

Lemma run_seeded schedule s : seeded (store s) → seeded (store (run s schedule).1).
Proof.
  revert s. induction schedule as [|a schedule IH]; intros s Hs; [done|].
  simpl. pose proof (exec_seeded s a Hs) as H1.
  destruct (exec s a) as [s1 evs]. specialize (IH s1 H1).
  by destruct (run s1 schedule).
Qed.

(** Every status belongs to a member of the watchlist.  The command handlers
    keep it so; the write of the loop at line 224 does not. *)
Definition tied (st : State) : Prop :=
  dom (user_status st) ⊆ monitored_users st.

Definition is_command (a : action) : bool :=
  match a with ResumeLoop _ => false | _ => true end.

Lemma remove_user_command_tied st args :
  tied st → tied (_remove_user_command st args).1.
Proof.
  intros Ht. unfold _remove_user_command. destruct args as [|arg args]; [done|].
  simpl. case_decide; [|done]. unfold tied in *. simpl.
  destruct (user_status st !! normalize_username arg) eqn:E.
  - rewrite dom_delete_L.
    intros x [Hx Hne]%elem_of_difference. apply elem_of_difference. auto.
  - apply not_elem_of_dom in E. intros x Hx. apply elem_of_difference.
    split; [auto|]. intros ->%elem_of_singleton. done.
Qed.

Lemma exec_command_tied s a :
  is_command a = true → tied (store s) → tied (store (exec s a).1).
Proof.
  intros Ha Ht. destruct a as [args|args| |i w|w]; simpl; [| | | |done].
  - destruct (_add_user_command_begin (store s) args) as [evs [username|]]; [|done].
    by destruct (check_begin (store s) username).
  - pose proof (remove_user_command_tied (store s) args Ht) as H.
    by destruct (_remove_user_command (store s) args).
  - done.
  - unfold handler_step. destruct (handlers s !! i) as [[c username]|]; [|done].
    destruct (check_resume (store s) username c w) as [[[st2 evs2] [c'|[b|]]]|] eqn:E; [| | |done].
    all: destruct (check_resume_store _ _ _ _ _ _ _ E) as [HM HS]; simpl.
    1, 3: unfold tied; by rewrite HM, HS.
    unfold tied in *. simpl. rewrite dom_insert_L, HM, HS. by apply union_mono_l.
Qed.

(** While the loop does not run, the status map has entries for exactly the
    members of the watchlist. *)
Lemma commands_keep_status_with_members (tok : option string) (schedule : list action) :
  forallb is_command schedule = true →
  dom (user_status (store (run (boot tok) schedule).1))
  = monitored_users (store (run (boot tok) schedule).1).
Proof.
  intros Hc. apply (anti_symm (⊆)); [|apply run_seeded, empty_subseteq].
  assert (Ht : tied (store (boot tok))).
  { unfold tied. simpl. rewrite dom_empty_L. done. }
  revert Hc Ht. generalize (boot tok).
  induction schedule as [|a schedule IH]; intros s Hc Ht; [done|].
  simpl in Hc. apply andb_prop in Hc as [Ha Hc].
  simpl. pose proof (exec_command_tied s a Ha Ht) as H1.
  destruct (exec s a) as [s1 evs]. specialize (IH s1 Hc H1).
  by destruct (run s1 schedule).
Qed.

(** C10: whatever commands have run (and whatever the loop has done in between),
    every identifier on the watchlist has an entry in the status map: [/add]
    inserts the identifier together with its probed status, [/remove] deletes
    both, and neither suspends in between. *)
Theorem watchlist_members_have_status (tok : option string) (schedule : list action) :
  monitored_users (store (run (boot tok) schedule).1)
    ⊆ dom (user_status (store (run (boot tok) schedule).1)).
Proof. apply run_seeded. unfold seeded. simpl. apply empty_subseteq. Qed.

(** C8: [/add] of an identifier that is on the watchlist replies "already
    monitored" and changes nothing: the copy of the watchlist is the same and
    without duplicates, the status map is the same, no handler waits for a
    probe, and no request is sent. *)
Theorem add_present_is_noop (s : Sys) (arg : string) (args : list string) :
  normalize_username arg ∈ monitored_users (store s) →
  exec s (CmdAdd (arg :: args)) = (s, [EvReply (ReplyAlreadyMonitored (normalize_username arg))]) ∧
  let '(s', evs) := exec s (CmdAdd (arg :: args)) in
  snapshot (store s') = snapshot (store s) ∧
  NoDup (snapshot (store s')) ∧
  user_status (store s') = user_status (store s) ∧
  handlers s' = handlers s ∧
  count_events is_lookup evs = 0%nat ∧
  count_events is_token_request evs = 0%nat.
Proof.
  intros H. simpl. rewrite decide_True by done. simpl.
  split_and!; try done. unfold snapshot. apply NoDup_elements.
Qed.

Lemma add_present_is_noop_witness :
  normalize_username "u/alice" ∈ monitored_users (store (mkSys alice_banned LoopSleep [])) ∧
  exec (mkSys alice_banned LoopSleep []) (CmdAdd ["u/alice"])
    = (mkSys alice_banned LoopSleep [], [EvReply (ReplyAlreadyMonitored "alice")]) ∧
  user_status (store (exec (mkSys alice_banned LoopSleep []) (CmdAdd ["u/alice"])).1) !! "alice"
    = Some false.
Proof.
  assert (Hin : normalize_username "u/alice" ∈ monitored_users (store (mkSys alice_banned LoopSleep []))).
  { apply (bool_decide_unpack _). vm_compute. exact I. }
  split; [exact Hin|].
  destruct (add_present_is_noop (mkSys alice_banned LoopSleep []) "u/alice" [] Hin) as [E _].
  split; [exact E|]. rewrite E. reflexivity.
Defined.

(** After a [/remove] that finds its identifier, the identifier is neither in
    the copy of the watchlist nor in the status map. *)
Lemma remove_present_clears (st : State) (arg : string) (args : list string) :
  normalize_username arg ∈ monitored_users st →
  let '(st1, evs) := _remove_user_command st (arg :: args) in
  (normalize_username arg ∉ snapshot st1) ∧
  user_status st1 !! normalize_username arg = None ∧
  evs = [EvReply (ReplyRemoved (normalize_username arg))].
Proof.
  intros H. simpl. rewrite decide_True by done.
  split_and!; [| |done].
  - unfold snapshot. simpl. rewrite elem_of_elements, elem_of_difference.
    intros [_ Hne]. apply Hne. by apply elem_of_singleton.
  - simpl. destruct (user_status st !! normalize_username arg) eqn:E; [|done].
    apply lookup_delete_eq.
Qed.

(** The write of line 224 stores the status whether or not the identifier is
    still on the watchlist. *)
Lemma loop_write_is_unguarded (st : State) (username : string) (b : bool) (rest : list string) :
  ∃ st1, _monitoring_loop_step st (LoopSend username b rest) Sent = Some (st1, LoopPause rest, []) ∧
         user_status st1 !! username = Some b ∧
         monitored_users st1 = monitored_users st.
Proof.
  eexists. split; [reflexivity|]. split; [|done].
  simpl. apply lookup_insert_eq.
Qed.

(** C3, the code at the failing input: alice is added, a sweep takes its copy of
    the watchlist and waits for her lookup, and [/remove alice] runs.  After the
    removal alice is in neither the watchlist nor the status map.  Then the
    lookup is answered 404: the loop reads the missing status as true, sends a
    "banned" notification, and its write puts alice back into the status map. *)
Theorem late_write_after_remove :
  let s0 := (run (boot (Some "tok")) sweep_in_flight).1 in
  let s1 := (exec s0 (CmdRemove ["alice"])).1 in
  let '(s2, evs) := run s1 [ResumeLoop nf404; ResumeLoop Sent] in
  loop s0 = LoopCheck AwaitLookup "alice" [] ∧
  snapshot (store s0) = ["alice"] ∧
  snapshot (store s1) = [] ∧
  user_status (store s1) !! "alice" = None ∧
  snapshot (store s2) = [] ∧
  user_status (store s2) !! "alice" = Some false ∧
  evs = [EvNotify Banned "alice"].
Proof. vm_compute. split_and!; reflexivity. Qed.

(** C4, the code at the failing input: the same interleaving with the lookup
    answered 200.  The status map ends with an entry for alice and the watchlist
    is empty, so the entry has no member to go with. *)
Theorem orphaned_status_is_reachable :
  let s := (run (boot (Some "tok"))
              (sweep_in_flight ++ [CmdRemove ["alice"]; ResumeLoop ok200])).1 in
  user_status (store s) !! "alice" = Some true ∧
  monitored_users (store s) = ∅ ∧
  ¬ (dom (user_status (store s)) ⊆ monitored_users (store s)).
Proof.
  intros s.
  assert (E1 : user_status (store s) !! "alice" = Some true) by (vm_compute; reflexivity).
  assert (E2 : monitored_users (store s) = ∅) by (vm_compute; reflexivity).
  clearbody s. split_and!; [exact E1|exact E2|].
  rewrite E2. intros H.
  assert (Hd : "alice" ∈ dom (user_status (store s))).
  { apply elem_of_dom. rewrite E1. by eexists. }
  exact (not_elem_of_empty _ (proj1 (elem_of_subseteq _ _) H _ Hd)).
Qed.

(** The two counts of [/status] are not negative and add up to the number of
    entries of the status map. *)
Lemma status_counts_sum (st : State) :
  active_count st + banned_count st = Z.of_nat (size (user_status st)) ∧
  0 ≤ active_count st ∧ 0 ≤ banned_count st.
Proof.
  unfold banned_count, active_count.
  assert (List.length (List.filter (λ status : bool, status) (map_to_list (user_status st)).*2)
          ≤ size (user_status st))%nat.
  { etransitivity; [apply List.filter_length_le|].
    by rewrite length_fmap, length_map_to_list. }
  lia.
Qed.

(** Under any schedule the status map has at least as many entries as the
    watchlist has members. *)
Lemma watchlist_size_le_tracked (tok : option string) (schedule : list action) :
  total_monitored (store (run (boot tok) schedule).1)
  ≤ Z.of_nat (size (user_status (store (run (boot tok) schedule).1))).
Proof.
  assert (H : seeded (store (run (boot tok) schedule).1)).
  { apply run_seeded. unfold seeded. simpl. apply empty_subseteq. }
  unfold total_monitored. apply subseteq_size in H. rewrite size_dom in H. lia.
Qed.

(** C5, the code at the failing input: after the interleaving of C4, [/status]
    reports 0 monitored accounts, 1 active and 0 banned.  The two counts add up
    to the one entry of the status map, which is more than the watchlist has. *)
Theorem status_counts_exceed_watchlist :
  let '(s, evs) := run (boot (Some "tok"))
                     (sweep_in_flight ++ [CmdRemove ["alice"]; ResumeLoop ok200; CmdStatus]) in
  last evs = Some (EvReply (ReplyStatus 0 1 0)) ∧
  active_count (store s) + banned_count (store s) = 1 ∧
  Z.of_nat (size (user_status (store s))) = 1 ∧
  total_monitored (store s) = 0 ∧
  ¬ (Z.of_nat (size (user_status (store s))) ≤ total_monitored (store s)).
Proof. vm_compute. split_and!; try reflexivity. intros H. by apply H. Qed.

(** * Further properties of the code *)

(** ** Start-up checks *)

Lemma filter_sublist {A} (f : A → bool) (l : list A) : sublist (List.filter f l) l.
Proof.
  induction l as [|x l IH]; simpl; [constructor|].
  destruct (f x); by constructor.
Qed.

Lemma elem_of_missing_vars (env : gmap string string) (var : string) :
  var ∈ missing_vars env ↔
  var ∈ required_vars ∧ (env !! var = None ∨ env !! var = Some "").
Proof.
  unfold missing_vars. rewrite list_elem_of_In, List.filter_In, <- list_elem_of_In.
  unfold env_missing. destruct (env !! var) as [v|].
  - destruct (String.eqb_spec v "") as [->|Hne].
    + split; intros [? _]; auto.
    + split; [intros [_ [=]]|]. intros [_ [[=]|[= ->]]]. done.
  - split; intros [? _]; auto.
Qed.

(** X1: [_validate_config] returns exactly when each of the four required
    variables is set to a string that is not empty; otherwise it raises. *)
Theorem validate_config_accepts (env : gmap string string) :
  _validate_config env = None ↔
  ∀ var, var ∈ required_vars → ∃ v, env !! var = Some v ∧ v ≠ "".
Proof.
  unfold _validate_config. split.
  - destruct (missing_vars env) as [|m l] eqn:E; [|done].
    intros _ var Hvar.
    assert (Hn : var ∉ missing_vars env) by (rewrite E; apply not_elem_of_nil).
    rewrite elem_of_missing_vars in Hn.
    destruct (env !! var) as [v|]; [|exfalso; auto].
    exists v. split; [done|]. intros ->. auto.
  - intros H. destruct (missing_vars env) as [|m l] eqn:E; [done|].
    assert (Hm : m ∈ missing_vars env) by (rewrite E; apply list_elem_of_here).
    apply elem_of_missing_vars in Hm as [Hreq Hm].
    destruct (H m Hreq) as (v & Hv & Hne). rewrite Hv in Hm.
    destruct Hm as [[=]|[= ->]]. done.
Qed.

(** X2: when [_validate_config] raises, its message is the fixed prefix followed
    by the names, joined by a comma and a space, of exactly the required
    variables that are unset or empty, in the order of the list of required
    variables and each once. *)
Theorem validate_config_message (env : gmap string string) (message : string) :
  _validate_config env = Some message →
  message = "Missing required environment variables: " +:+ join ", " (missing_vars env) ∧
  missing_vars env ≠ [] ∧
  sublist (missing_vars env) required_vars ∧
  NoDup (missing_vars env) ∧
  ∀ var, var ∈ missing_vars env ↔
         var ∈ required_vars ∧ (env !! var = None ∨ env !! var = Some "").
Proof.
  unfold _validate_config. intros H.
  assert (Hne : missing_vars env ≠ []).
  { intros E. by rewrite E in H. }
  split_and!.
  - destruct (missing_vars env); [done|]. by injection H as <-.
  - done.
  - apply filter_sublist.
  - apply (sublist_NoDup _ required_vars); [|apply filter_sublist].
    apply (bool_decide_unpack _). vm_compute. exact I.
  - apply elem_of_missing_vars.
Qed.

Lemma validate_config_message_witness :
  _validate_config {["TELEGRAM_BOT_TOKEN" := "t"; "TELEGRAM_CHAT_ID" := ""]}
    = Some "Missing required environment variables: TELEGRAM_CHAT_ID, REDDIT_CLIENT_ID, REDDIT_CLIENT_SECRET" ∧
  missing_vars {["TELEGRAM_BOT_TOKEN" := "t"; "TELEGRAM_CHAT_ID" := ""]} ≠ [].
Proof.
  assert (E : _validate_config {["TELEGRAM_BOT_TOKEN" := "t"; "TELEGRAM_CHAT_ID" := ""]}
    = Some "Missing required environment variables: TELEGRAM_CHAT_ID, REDDIT_CLIENT_ID, REDDIT_CLIENT_SECRET")
    by (vm_compute; reflexivity).
  split; [exact E|].
  exact (proj1 (proj2 (validate_config_message _ _ E))).
Defined.

(** ** The command arguments, continued *)

(** X3: for an argument [name] or [u/name] in which [name] has no slash, the
    identifier is [name]. *)
Theorem normalize_ordinary_argument (name : string) :
  PyStr.contains_char "/"%char name = false →
  normalize_username name = name ∧
  normalize_username ("u/" +:+ name) = name.
Proof.
  intros H. split; [by apply normalize_plain|]. by apply normalize_prefixed.
Qed.

Lemma normalize_ordinary_argument_witness :
  PyStr.contains_char "/"%char "alice_99" = false ∧
  normalize_username "alice_99" = "alice_99" ∧
  normalize_username ("u/" +:+ "alice_99") = "alice_99".
Proof.
  split; [reflexivity|]. apply (normalize_ordinary_argument "alice_99"). reflexivity.
Defined.

(** ** [/list] *)

Section StringOrder.

Lemma ascii_compare_refl (a : ascii) : Ascii.compare a a = Eq.
Proof. unfold Ascii.compare. apply N.compare_refl. Qed.

Lemma ascii_compare_lt_trans (a b c : ascii) :
  Ascii.compare a b = Lt → Ascii.compare b c = Lt → Ascii.compare a c = Lt.
Proof.
  unfold Ascii.compare. rewrite !N.compare_lt_iff. apply N.lt_trans.
Qed.

Lemma string_compare_refl (s : string) : String.compare s s = Eq.
Proof. induction s as [|a s IH]; simpl; [done|]. by rewrite ascii_compare_refl. Qed.

Lemma string_compare_lt_trans (s1 s2 s3 : string) :
  String.compare s1 s2 = Lt → String.compare s2 s3 = Lt → String.compare s1 s3 = Lt.
Proof.
  revert s2 s3. induction s1 as [|a s1 IH]; intros [|b s2] [|c s3]; simpl; try done.
  destruct (Ascii.compare a b) eqn:Eab; [| |done];
    destruct (Ascii.compare b c) eqn:Ebc; try done.
  - apply Ascii.compare_eq_iff in Eab as ->. rewrite Ebc. apply IH.
  - apply Ascii.compare_eq_iff in Eab as ->. by rewrite Ebc.
  - apply Ascii.compare_eq_iff in Ebc as <-. by rewrite Eab.
  - by rewrite (ascii_compare_lt_trans a b c).
Qed.

Lemma str_le_cases (a b : string) : str_le a b ↔ String.compare a b = Lt ∨ a = b.
Proof.
  unfold str_le, String.leb. split.
  - destruct (String.compare a b) eqn:E; [|by left|done].
    right. by apply String.compare_eq_iff.
  - intros [->| ->]; [done|]. by rewrite string_compare_refl.
Qed.

#[global] Instance str_le_total : Total str_le.
Proof. intros a b. apply String.leb_total. Qed.

#[global] Instance str_le_trans : Transitive str_le.
Proof.
  intros a b c [Hab| ->]%str_le_cases [Hbc| ->]%str_le_cases; apply str_le_cases; auto.
  left. by apply (string_compare_lt_trans a b c).
Qed.

#[global] Instance str_le_antisym : AntiSymm (=) str_le.
Proof. intros a b. apply String.leb_antisym. Qed.

End StringOrder.

Lemma sorted_spec (l : list string) :
  Sorted str_le (sorted l) ∧ sorted l ≡ₚ l.
Proof.
  split; [apply (Sorted_merge_sort str_le)|apply (merge_sort_Permutation str_le)].
Qed.

Lemma list_rows_names (st : State) :
  (list_rows st).*1 = sorted (elements (monitored_users st)).
Proof.
  unfold list_rows. rewrite <- list_fmap_compose.
  induction (sorted (elements (monitored_users st))) as [|x l IH]; [done|].
  simpl. by f_equal.
Qed.

(** X4: [/list] shows the members of the watchlist and nothing else (a status
    left without a member is not shown), each once, in ascending order of the
    names, which fixes the arrangement; a member is shown with its stored
    status, and as active when it has none. *)
Theorem list_rows_are_sorted_members (st : State) :
  Sorted str_le (list_rows st).*1 ∧
  NoDup (list_rows st).*1 ∧
  (∀ username b, (username, b) ∈ list_rows st ↔
                 username ∈ monitored_users st ∧ b = default true (user_status st !! username)) ∧
  (∀ l, Sorted str_le l → l ≡ₚ elements (monitored_users st) → l = (list_rows st).*1).
Proof.
  destruct (sorted_spec (elements (monitored_users st))) as [Hs Hp].
  rewrite list_rows_names. split_and!.
  - done.
  - rewrite Hp. apply NoDup_elements.
  - intros username b. unfold list_rows. rewrite list_elem_of_fmap. split.
    + intros (u & [= -> ->] & Hu). rewrite Hp in Hu. by apply elem_of_elements in Hu.
    + intros [Hu ->]. exists username. split; [done|].
      rewrite Hp. by apply elem_of_elements.
  - intros l Hl Hpl. apply (Sorted_unique str_le); [done..|]. by rewrite Hp.
Qed.

(** ** [/add] and [/remove] *)

Lemma sys_eta (s : Sys) : mkSys (store s) (loop s) (handlers s) = s.
Proof. by destruct s. Qed.

Lemma state_eta (st : State) :
  mkState (monitored_users st) (user_status st) (reddit_token st) = st.
Proof. by destruct st. Qed.

Lemma handler_step_last (s : Sys) (h : handler_pc) (w : wake) :
  handler_step (mkSys (store s) (loop s) (handlers s ++ [h])) (length (handlers s)) w
  = match h with
    | AddCheck c username =>
        match check_resume (store s) username c w with
        | None => None
        | Some (st1, evs, CheckMore c') =>
            Some (mkSys st1 (loop s) (handlers s ++ [AddCheck c' username]), evs)
        | Some (st1, evs, CheckDone Raised) => Some (mkSys st1 (loop s) (handlers s), evs)
        | Some (st1, evs, CheckDone (Returned is_active)) =>
            Some (mkSys (_add_user_command_commit st1 username is_active).1 (loop s) (handlers s),
                  (evs ++ (_add_user_command_commit st1 username is_active).2)%list)
        end
    end.
Proof.
  unfold handler_step. simpl.
  rewrite (list_lookup_middle (handlers s) [] h) by done.
  destruct h as [c username].
  destruct (check_resume (store s) username c w) as [[[st1 evs] [c'|[b|]]]|]; [| | |done].
  - f_equal. f_equal. f_equal.
    rewrite <- (Nat.add_0_r (length (handlers s))).
    by rewrite (insert_app_r (handlers s) [AddCheck c username] 0).
  - simpl. f_equal. f_equal. f_equal.
    rewrite (delete_middle (handlers s) [] (AddCheck c username)). apply app_nil_r.
  - f_equal. f_equal. f_equal.
    rewrite (delete_middle (handlers s) [] (AddCheck c username)). apply app_nil_r.
Qed.

Lemma add_absent_steps (s : Sys) (arg : string) (args : list string) (get : get_outcome) :
  token_truthy (store s) = true →
  normalize_username arg ∉ monitored_users (store s) →
  exec s (CmdAdd (arg :: args))
  = (mkSys (store s) (loop s)
       (handlers s ++ [AddCheck AwaitLookup (normalize_username arg)]),
     [EvLookup (normalize_username arg)]) ∧
  exec (mkSys (store s) (loop s)
          (handlers s ++ [AddCheck AwaitLookup (normalize_username arg)]))
       (ResumeHandler (length (handlers s)) (GetDone get))
  = (mkSys (_add_user_command_commit (store s) (normalize_username arg) (lookup_result get)).1
       (loop s) (handlers s),
     [EvReply (ReplyAdded (normalize_username arg) (lookup_result get))]).
Proof.
  intros Htok Hnot. split.
  - simpl. rewrite decide_False by done. unfold check_begin. by rewrite Htok.
  - cbn [exec]. by rewrite handler_step_last.
Qed.

(** X5: [/add] of an identifier that is not on the watchlist, with a token held:
    the handler sends one lookup and changes nothing until the answer is there;
    then the identifier is on the watchlist with the result of the lookup as
    its status, the reply tells that status, and nothing else has changed. *)
Theorem add_absent_then_probe (s : Sys) (arg : string) (args : list string)
    (get : get_outcome) :
  token_truthy (store s) = true →
  normalize_username arg ∉ monitored_users (store s) →
  let username := normalize_username arg in
  let '(s1, evs1) := exec s (CmdAdd (arg :: args)) in
  let '(s2, evs2) := exec s1 (ResumeHandler (length (handlers s)) (GetDone get)) in
  evs1 = [EvLookup username] ∧
  store s1 = store s ∧
  evs2 = [EvReply (ReplyAdded username (lookup_result get))] ∧
  monitored_users (store s2) = {[username]} ∪ monitored_users (store s) ∧
  user_status (store s2) = <[username := lookup_result get]> (user_status (store s)) ∧
  reddit_token (store s2) = reddit_token (store s) ∧
  handlers s2 = handlers s ∧
  loop s2 = loop s.
Proof.
  intros Htok Hnot.
  destruct (add_absent_steps s arg args get Htok Hnot) as [E1 E2].
  cbv zeta. rewrite E1, E2. done.
Qed.

Lemma add_absent_then_probe_witness :
  token_truthy (store (boot (Some "tok"))) = true ∧
  (normalize_username "u/bob" ∉ monitored_users (store (boot (Some "tok")))) ∧
  let '(s1, evs1) := exec (boot (Some "tok")) (CmdAdd ["u/bob"]) in
  let '(s2, evs2) := exec s1 (ResumeHandler (length (handlers (boot (Some "tok")))) nf404) in
  evs1 = [EvLookup (normalize_username "u/bob")] ∧
  store s1 = store (boot (Some "tok")) ∧
  evs2 = [EvReply (ReplyAdded (normalize_username "u/bob") (lookup_result (GetResponse 404 false)))] ∧
  monitored_users (store s2) = {[normalize_username "u/bob"]} ∪ monitored_users (store (boot (Some "tok"))) ∧
  user_status (store s2)
    = <[normalize_username "u/bob" := lookup_result (GetResponse 404 false)]>
        (user_status (store (boot (Some "tok")))) ∧
  reddit_token (store s2) = reddit_token (store (boot (Some "tok"))) ∧
  handlers s2 = handlers (boot (Some "tok")) ∧
  loop s2 = loop (boot (Some "tok")).
Proof.
  assert (Hnot : normalize_username "u/bob" ∉ monitored_users (store (boot (Some "tok")))).
  { apply (bool_decide_unpack _). vm_compute. exact I. }
  split; [reflexivity|]. split; [exact Hnot|].
  exact (add_absent_then_probe (boot (Some "tok")) "u/bob" [] (GetResponse 404 false)
           eq_refl Hnot).
Defined.

(** X6: [/add] of an identifier that is not on the watchlist while no token is
    held: the handler first requests a token, and when that request fails the
    handler ends there: nothing is added, no lookup is sent and no reply is
    given; the system is as it was before the command. *)
Theorem add_without_token_fails_silently (s : Sys) (arg : string) (args : list string)
    (post : post_outcome) :
  token_truthy (store s) = false →
  normalize_username arg ∉ monitored_users (store s) →
  (_get_reddit_token (store s) post).2 = Raised →
  let '(s1, evs1) := exec s (CmdAdd (arg :: args)) in
  let '(s2, evs2) := exec s1 (ResumeHandler (length (handlers s)) (PostDone post)) in
  evs1 = [EvTokenRequest] ∧ evs2 = [] ∧ s2 = s.
Proof.
  intros Htok Hnot Hpost. simpl. rewrite decide_False by done.
  unfold check_begin. rewrite Htok. simpl.
  rewrite handler_step_last. simpl.
  assert (Hst : _get_reddit_token (store s) post = (store s, Raised)).
  { destruct post as [status [tok|]|]; simpl in *; try done.
    all: destruct (status =? 200); done. }
  rewrite Hst. split_and!; try done. apply sys_eta.
Qed.

Lemma add_without_token_fails_silently_witness :
  token_truthy (store (boot None)) = false ∧
  (normalize_username "bob" ∉ monitored_users (store (boot None))) ∧
  (_get_reddit_token (store (boot None)) (PostResponse 503 None)).2 = Raised ∧
  let '(s1, evs1) := exec (boot None) (CmdAdd ["bob"]) in
  let '(s2, evs2) := exec s1 (ResumeHandler (length (handlers (boot None)))
                                 (PostDone (PostResponse 503 None))) in
  evs1 = [EvTokenRequest] ∧ evs2 = [] ∧ s2 = boot None.
Proof.
  assert (Hnot : normalize_username "bob" ∉ monitored_users (store (boot None))).
  { apply (bool_decide_unpack _). vm_compute. exact I. }
  split; [reflexivity|]. split; [exact Hnot|]. split; [reflexivity|].
  exact (add_without_token_fails_silently (boot None) "bob" [] (PostResponse 503 None)
           eq_refl Hnot eq_refl).
Defined.

(** X7: [/add] of an identifier that has neither a membership nor a status,
    answered by its probe, followed by [/remove] of the same argument, gives
    back the watchlist and the status map there were before. *)
Theorem add_then_remove_restores (s : Sys) (arg : string) (args args' : list string)
    (get : get_outcome) :
  token_truthy (store s) = true →
  normalize_username arg ∉ monitored_users (store s) →
  user_status (store s) !! normalize_username arg = None →
  let '(s3, evs) :=
    run s [CmdAdd (arg :: args);
           ResumeHandler (length (handlers s)) (GetDone get);
           CmdRemove (arg :: args')] in
  s3 = s ∧
  evs = [EvLookup (normalize_username arg);
         EvReply (ReplyAdded (normalize_username arg) (lookup_result get));
         EvReply (ReplyRemoved (normalize_username arg))].
Proof.
  intros Htok Hnot Hnone.
  destruct (add_absent_steps s arg args get Htok Hnot) as [E1 E2].
  cbn [run]. rewrite E1, E2. simpl.
  rewrite decide_True by (apply elem_of_union_l; by apply elem_of_singleton).
  rewrite lookup_insert_eq, delete_insert_eq, delete_id by done.
  split; [|done].
  replace (({[normalize_username arg]} ∪ monitored_users (store s)) ∖ {[normalize_username arg]})
    with (monitored_users (store s)).
  - by rewrite state_eta, sys_eta.
  - apply set_eq. intros x. rewrite elem_of_difference, elem_of_union, !elem_of_singleton.
    split; [|intros [[->|?] ?]; done].
    intros Hx. split; [by right|]. intros ->. done.
Qed.

Lemma add_then_remove_restores_witness :
  token_truthy (store (boot (Some "tok"))) = true ∧
  (normalize_username "u/bob" ∉ monitored_users (store (boot (Some "tok")))) ∧
  user_status (store (boot (Some "tok"))) !! normalize_username "u/bob" = None ∧
  let '(s3, evs) :=
    run (boot (Some "tok"))
        [CmdAdd ["u/bob"];
         ResumeHandler (length (handlers (boot (Some "tok")))) (GetDone (GetResponse 200 true));
         CmdRemove ["u/bob"]] in
  s3 = boot (Some "tok") ∧
  evs = [EvLookup (normalize_username "u/bob");
         EvReply (ReplyAdded (normalize_username "u/bob") (lookup_result (GetResponse 200 true)));
         EvReply (ReplyRemoved (normalize_username "u/bob"))].
Proof.
  assert (Hnot : normalize_username "u/bob" ∉ monitored_users (store (boot (Some "tok")))).
  { apply (bool_decide_unpack _). vm_compute. exact I. }
  split; [reflexivity|]. split; [exact Hnot|]. split; [reflexivity|].
  exact (add_then_remove_restores (boot (Some "tok")) "u/bob" [] [] (GetResponse 200 true)
           eq_refl Hnot eq_refl).
Defined.

(** X8: [/remove] touches one identifier only: for every other name the
    membership and the stored status are the same after it, and the token is
    the same. *)
Theorem remove_touches_one_identifier (st : State) (arg : string) (args : list string)
    (other : string) :
  other ≠ normalize_username arg →
  let st1 := (_remove_user_command st (arg :: args)).1 in
  (other ∈ monitored_users st1 ↔ other ∈ monitored_users st) ∧
  user_status st1 !! other = user_status st !! other ∧
  reddit_token st1 = reddit_token st.
Proof.
  intros Hne. simpl. case_decide; [|done]. simpl. split_and!; [| |done].
  - rewrite elem_of_difference, elem_of_singleton. split; [by intros [? _]|done].
  - destruct (user_status st !! normalize_username arg); [|done].
    by apply lookup_delete_ne.
Qed.

Lemma remove_touches_one_identifier_witness :
  "bob" ≠ normalize_username "u/alice" ∧
  let st1 := (_remove_user_command alice_banned ["u/alice"]).1 in
  ("bob" ∈ monitored_users st1 ↔ "bob" ∈ monitored_users alice_banned) ∧
  user_status st1 !! "bob" = user_status alice_banned !! "bob" ∧
  reddit_token st1 = reddit_token alice_banned.
Proof.
  assert (Hne : "bob" ≠ normalize_username "u/alice") by (vm_compute; discriminate).
  split; [exact Hne|].
  exact (remove_touches_one_identifier alice_banned "u/alice" [] "bob" Hne).
Defined.

(** X9: a second [/remove] of the same argument finds nothing to remove: it
    replies "not monitored" and leaves the state of the first one. *)
Theorem remove_twice (st : State) (arg : string) (args args' : list string) :
  let st1 := (_remove_user_command st (arg :: args)).1 in
  _remove_user_command st1 (arg :: args')
  = (st1, [EvReply (ReplyNotMonitored (normalize_username arg))]).
Proof.
  simpl. destruct (decide (normalize_username arg ∈ monitored_users st)) as [Hin|Hnot]; simpl.
  - rewrite decide_False; [done|].
    rewrite elem_of_difference, elem_of_singleton. by intros [_ ?].
  - by rewrite decide_False.
Qed.

(** ** The monitoring loop *)

(** The identifier the loop is working on, if any. *)
Definition loop_current (pc : loop_pc) : option string :=
  match pc with
  | LoopCheck _ username _ | LoopSend username _ _ => Some username
  | LoopSleep | LoopPause _ => None
  end.

(** X10: a segment of the loop never changes the watchlist, and the only status
    it can change is the one of the identifier it is working on. *)
Theorem loop_segment_frame (st : State) (pc : loop_pc) (w : wake)
    (st1 : State) (pc' : loop_pc) (evs : list event) :
  _monitoring_loop_step st pc w = Some (st1, pc', evs) →
  monitored_users st1 = monitored_users st ∧
  ∀ other, loop_current pc ≠ Some other → user_status st1 !! other = user_status st !! other.
Proof.
  intros H. destruct pc as [|c username rest|username b rest|rest]; simpl in H.
  - destruct w; try done. case_decide.
    + by injection H as <- _ _.
    + destruct (loop_next st (snapshot st)). by injection H as <- _ _.
  - destruct (check_resume st username c w) as [[[st2 evs2] [c'|[b|]]]|] eqn:E; [| | |done].
    + destruct (check_resume_store _ _ _ _ _ _ _ E) as [HM HS].
      injection H as <- _ _. by rewrite HS.
    + destruct (check_resume_returned _ _ _ _ _ _ _ E) as (_ & -> & _).
      destruct (status_or_true st username && negb b); [by injection H as <- _ _|].
      destruct (negb (status_or_true st username) && b); injection H as <- _ _; [done|].
      split; [done|]. intros other Hne. simpl. apply lookup_insert_ne. intros ->. by apply Hne.
    + destruct (check_resume_store _ _ _ _ _ _ _ E) as [HM HS].
      destruct (loop_next st2 rest). injection H as <- _ _. by rewrite HS.
  - destruct w; try done. injection H as <- _ _.
    split; [done|]. intros other Hne. simpl. apply lookup_insert_ne. intros ->. by apply Hne.
  - destruct w; try done. destruct (loop_next st rest). by injection H as <- _ _.
Qed.

Lemma loop_segment_frame_witness :
  _monitoring_loop_step alice_banned (LoopSend "alice" true ["bob"]) Sent
    = Some (store_status alice_banned "alice" true, LoopPause ["bob"], []) ∧
  monitored_users (store_status alice_banned "alice" true) = monitored_users alice_banned ∧
  ∀ other, loop_current (LoopSend "alice" true ["bob"]) ≠ Some other →
           user_status (store_status alice_banned "alice" true) !! other
           = user_status alice_banned !! other.
Proof.
  split; [reflexivity|].
  exact (loop_segment_frame alice_banned (LoopSend "alice" true ["bob"]) Sent
           (store_status alice_banned "alice" true) (LoopPause ["bob"]) [] eq_refl).
Defined.

(** X11: while the watchlist is empty the sleeping loop does nothing, whatever
    wakes it up and however often: no request, no notification, no change. *)
Theorem idle_loop_is_silent (s : Sys) (ws : list wake) :
  monitored_users (store s) = ∅ →
  loop s = LoopSleep →
  run s (ResumeLoop <$> ws) = (s, []).
Proof.
  intros HM HL. induction ws as [|w ws IH]; [done|].
  cbn [fmap list_fmap run].
  assert (E : exec s (ResumeLoop w) = (s, [])).
  { simpl. rewrite HL. destruct w; simpl; try done.
    rewrite decide_True by done. by rewrite <- HL, sys_eta. }
  rewrite E. by rewrite IH.
Qed.

Lemma idle_loop_is_silent_witness :
  monitored_users (store (boot (Some "tok"))) = ∅ ∧
  loop (boot (Some "tok")) = LoopSleep ∧
  run (boot (Some "tok")) (ResumeLoop <$> [Timer; Sent; ok200; Timer])
    = (boot (Some "tok"), []).
Proof.
  split; [reflexivity|]. split; [reflexivity|].
  exact (idle_loop_is_silent (boot (Some "tok")) [Timer; Sent; ok200; Timer] eq_refl eq_refl).
Defined.

Lemma exec_loop (s : Sys) (w : wake) (st1 : State) (pc' : loop_pc) (evs : list event) :
  _monitoring_loop_step (store s) (loop s) w = Some (st1, pc', evs) →
  exec s (ResumeLoop w) = (mkSys st1 pc' (handlers s), evs).
Proof. intros H. simpl. by rewrite H. Qed.

Lemma run_cons (s : Sys) (a : action) (schedule : list action) (s1 : Sys) (evs : list event) :
  exec s a = (s1, evs) →
  run s (a :: schedule) = ((run s1 schedule).1, (evs ++ (run s1 schedule).2)%list).
Proof. intros E. cbn [run]. rewrite E. by destruct (run s1 schedule). Qed.

Lemma sweep_from_pause (todo : list string) :
  ∀ (st : State) (gets : list get_outcome) (hs : list handler_pc),
    token_truthy st = true →
    length gets = length todo →
    run (mkSys st (LoopPause todo) hs)
        (ResumeLoop <$> (Timer :: sweep_wakes (user_status st) todo gets))
    = (mkSys (mkState (monitored_users st)
                (sweep_statuses (user_status st) todo gets) (reddit_token st))
         LoopSleep hs,
       sweep_events (user_status st) todo gets).
Proof.
  induction todo as [|username rest IH]; intros st gets hs Htok Hlen.
  - destruct gets; [|done]. cbn [sweep_wakes fmap list_fmap].
    rewrite (run_cons _ _ _ (mkSys st LoopSleep hs) []) by done.
    simpl. by rewrite state_eta.
  - destruct gets as [|get gets']; [done|]. injection Hlen as Hlen.
    specialize (IH (store_status st username (lookup_result get)) gets' hs Htok Hlen).
    cbn [sweep_wakes sweep_events]. unfold sweep_statuses. cbn [zip zip_with foldl].
    fold (sweep_statuses (<[username:=lookup_result get]> (user_status st)) rest gets').
    cbn [store_status user_status monitored_users reddit_token] in IH.
    rewrite fmap_cons.
    rewrite (run_cons _ _ _ (mkSys st (LoopCheck AwaitLookup username rest) hs)
               [EvLookup username]).
    2:{ apply exec_loop. simpl. unfold check_begin. by rewrite Htok. }
    rewrite fmap_cons.
    destruct (default true (user_status st !! username)) eqn:Hp;
      destruct (lookup_result get) eqn:Hc; cbn [xorb andb negb app].
    + rewrite (run_cons _ _ _ (mkSys (store_status st username true) (LoopPause rest) hs) []).
      2:{ apply exec_loop. simpl. unfold status_or_true. by rewrite Hc, Hp. }
      rewrite IH. done.
    + rewrite (run_cons _ _ _ (mkSys st (LoopSend username false rest) hs)
                 [EvNotify Banned username]).
      2:{ apply exec_loop. simpl. unfold status_or_true. by rewrite Hc, Hp. }
      rewrite fmap_cons.
      rewrite (run_cons _ _ _ (mkSys (store_status st username false) (LoopPause rest) hs) []).
      2:{ by apply exec_loop. }
      rewrite IH. done.
    + rewrite (run_cons _ _ _ (mkSys st (LoopSend username true rest) hs)
                 [EvNotify Restored username]).
      2:{ apply exec_loop. simpl. unfold status_or_true. by rewrite Hc, Hp. }
      rewrite fmap_cons.
      rewrite (run_cons _ _ _ (mkSys (store_status st username true) (LoopPause rest) hs) []).
      2:{ by apply exec_loop. }
      rewrite IH. done.
    + rewrite (run_cons _ _ _ (mkSys (store_status st username false) (LoopPause rest) hs) []).
      2:{ apply exec_loop. simpl. unfold status_or_true. by rewrite Hc, Hp. }
      rewrite IH. done.
Qed.

Lemma sweep_statuses_other (todo : list string) :
  ∀ (status : gmap string bool) (gets : list get_outcome) (other : string),
    other ∉ todo → sweep_statuses status todo gets !! other = status !! other.
Proof.
  unfold sweep_statuses.
  induction todo as [|username rest IH]; intros status gets other Hnot; [done|].
  destruct gets as [|get gets']; [done|]. cbn [zip zip_with foldl].
  apply not_elem_of_cons in Hnot as [Hne Hnot].
  rewrite IH by done. by apply lookup_insert_ne.
Qed.

Lemma sweep_statuses_at (todo : list string) :
  ∀ (status : gmap string bool) (gets : list get_outcome) (i : nat)
    (username : string) (get : get_outcome),
    NoDup todo → todo !! i = Some username → gets !! i = Some get →
    sweep_statuses status todo gets !! username = Some (lookup_result get).
Proof.
  induction todo as [|u rest IH]; intros status gets i username get Hnd Hu Hg; [done|].
  destruct gets as [|g gets']; [done|]. apply NoDup_cons in Hnd as [Hnot Hnd].
  destruct i as [|i]; simpl in Hu, Hg.
  - injection Hu as ->. injection Hg as ->.
    unfold sweep_statuses. cbn [zip zip_with foldl].
    fold (sweep_statuses (<[username:=lookup_result get]> status) rest gets').
    rewrite sweep_statuses_other by done. apply lookup_insert_eq.
  - unfold sweep_statuses. cbn [zip zip_with foldl].
    by apply (IH _ gets' i).
Qed.

Lemma sweep_events_lookups (todo : list string) :
  ∀ (status : gmap string bool) (gets : list get_outcome),
    length gets = length todo →
    List.filter is_lookup (sweep_events status todo gets) = EvLookup <$> todo.
Proof.
  induction todo as [|u rest IH]; intros status gets Hlen.
  - by destruct gets.
  - destruct gets as [|g gets']; [done|]. injection Hlen as Hlen.
    cbn [sweep_events List.filter is_lookup]. rewrite List.filter_app, IH by done.
    rewrite fmap_cons. f_equal.
    destruct (default true (status !! u)), (lookup_result g); done.
Qed.

Lemma loop_enter_snapshot (st : State) :
  _monitoring_loop_step st LoopSleep Timer = Some (loop_enter st (snapshot st)).
Proof.
  unfold loop_enter. simpl. case_decide; [done|].
  by destruct (loop_next st (snapshot st)).
Qed.

Lemma arrangement_NoDup todo st : arrangement todo st → NoDup todo.
Proof. intros H. rewrite H. apply NoDup_elements. Qed.

Lemma arrangement_elem_of todo st username :
  arrangement todo st → username ∈ todo ↔ username ∈ monitored_users st.
Proof. intros H. rewrite H. apply elem_of_elements. Qed.

(** The sweep entered over [todo] and run to its end. *)
Lemma sweep_entered (st : State) (hs : list handler_pc) (todo : list string)
    (gets : list get_outcome) :
  token_truthy st = true →
  monitored_users st ≠ ∅ →
  length gets = length todo →
  ∃ pc0 evs0 evs,
    loop_enter st todo = (st, pc0, evs0) ∧
    run (mkSys st pc0 hs) (ResumeLoop <$> sweep_wakes (user_status st) todo gets)
    = (mkSys (mkState (monitored_users st)
                (sweep_statuses (user_status st) todo gets) (reddit_token st))
         LoopSleep hs, evs) ∧
    (evs0 ++ evs)%list = sweep_events (user_status st) todo gets.
Proof.
  intros Htok HM Hlen.
  pose proof (sweep_from_pause todo st gets hs Htok Hlen) as H.
  destruct (loop_next st todo) as [pc0 evs0] eqn:En.
  rewrite fmap_cons in H.
  rewrite (run_cons _ _ _ (mkSys st pc0 hs) evs0) in H.
  2:{ apply exec_loop. simpl. by rewrite En. }
  destruct (run (mkSys st pc0 hs) (ResumeLoop <$> sweep_wakes (user_status st) todo gets))
    as [s' evs] eqn:Er.
  simpl in H. injection H as -> Hevs.
  exists pc0, evs0, evs. split_and!; [|done|done].
  unfold loop_enter. rewrite decide_False by done. by rewrite En.
Qed.

Lemma sweep_statuses_member (todo : list string) (answer : string → get_outcome)
    (status : gmap string bool) (username : string) :
  NoDup todo → username ∈ todo →
  sweep_statuses status todo (answer <$> todo) !! username
  = Some (lookup_result (answer username)).
Proof.
  intros Hnd [i Hi]%list_elem_of_lookup.
  apply (sweep_statuses_at _ _ _ i); [done|done|].
  by rewrite list_lookup_fmap, Hi.
Qed.

(** What the loop notifies for the answer [cur] on the stored status [prev]. *)
Definition notified (k : kind) (prev cur : bool) : Prop :=
  match k with
  | Banned => prev = true ∧ cur = false
  | Restored => prev = false ∧ cur = true
  end.

Lemma sweep_events_notify (todo : list string) (answer : string → get_outcome) :
  ∀ (status : gmap string bool) (k : kind) (username : string),
    NoDup todo →
    EvNotify k username ∈ sweep_events status todo (answer <$> todo) ↔
    username ∈ todo ∧
    notified k (default true (status !! username)) (lookup_result (answer username)).
Proof.
  induction todo as [|u rest IH]; intros status k username Hnd.
  - simpl. rewrite !elem_of_nil. by split; [|intros []].
  - apply NoDup_cons in Hnd as [Hnot Hnd].
    rewrite fmap_cons. cbn [sweep_events].
    rewrite !elem_of_cons, elem_of_app, (IH _ _ _ Hnd).
    split.
    + intros [[=]|[Hn|[Hin Hk]]].
      * assert (Hu : username = u ∧
                     notified k (default true (status !! u)) (lookup_result (answer u))).
        { destruct (default true (status !! u)), (lookup_result (answer u));
            simpl in Hn; try (by apply elem_of_nil in Hn);
            apply list_elem_of_singleton in Hn; by injection Hn as -> ->. }
        destruct Hu as [-> Hk]. by split; [left|].
      * split; [by right|].
        rewrite lookup_insert_ne in Hk; [done|]. by intros ->.
    + intros [[->|Hin] Hk].
      * right. left.
        destruct k, (default true (status !! u)), (lookup_result (answer u));
          destruct Hk as [? ?]; try done; apply list_elem_of_here.
      * right. right. split; [done|].
        rewrite lookup_insert_ne; [done|]. by intros ->.
Qed.

(** X12: a sweep that starts with a token held and a watchlist that is not
    empty, and that no command interrupts, in whatever order [todo] it goes
    through its copy of the watchlist: it sends one lookup per member, in that
    order, and ends asleep with the watchlist, the token and the handlers as
    they were.  Afterwards every member has the result of its own lookup as
    status and the status of every other name is as before; and a notification
    is sent about a member exactly when the result of its lookup differs from
    the status stored before the sweep (true when there was none). *)
Theorem uninterrupted_sweep (st : State) (hs : list handler_pc) (todo : list string)
    (answer : string → get_outcome) :
  token_truthy st = true →
  monitored_users st ≠ ∅ →
  arrangement todo st →
  let '(st0, pc0, evs0) := loop_enter st todo in
  let '(s', evs) :=
    run (mkSys st0 pc0 hs)
        (ResumeLoop <$> sweep_wakes (user_status st) todo (answer <$> todo)) in
  loop s' = LoopSleep ∧
  handlers s' = hs ∧
  monitored_users (store s') = monitored_users st ∧
  reddit_token (store s') = reddit_token st ∧
  List.filter is_lookup (evs0 ++ evs) = EvLookup <$> todo ∧
  (∀ username, username ∈ monitored_users st →
     user_status (store s') !! username = Some (lookup_result (answer username))) ∧
  (∀ other, other ∉ monitored_users st →
     user_status (store s') !! other = user_status st !! other) ∧
  (∀ k username,
     EvNotify k username ∈ (evs0 ++ evs)%list ↔
     username ∈ monitored_users st ∧
     notified k (status_or_true st username) (lookup_result (answer username))).
Proof.
  intros Htok HM Harr.
  pose proof (arrangement_NoDup _ _ Harr) as Hnd.
  destruct (sweep_entered st hs todo (answer <$> todo) Htok HM) as (pc0 & evs0 & evs & -> & -> & Hevs).
  { by rewrite length_fmap. }
  rewrite Hevs. simpl. split_and!; try done.
  - apply sweep_events_lookups. by rewrite length_fmap.
  - intros username Hin. apply sweep_statuses_member; [done|].
    by apply (arrangement_elem_of _ st).
  - intros other Hnot. apply sweep_statuses_other.
    by rewrite (arrangement_elem_of _ st).
  - intros k username. rewrite sweep_events_notify by done.
    by rewrite (arrangement_elem_of _ st).
Qed.

(** A bot with two accounts on the watchlist: alice last seen banned, bob
    active. *)
Definition two_accounts : State :=
  mkState {["alice"; "bob"]} {["alice" := false; "bob" := true]} (Some "tok").

Definition alice_back_bob_gone (username : string) : get_outcome :=
  if String.eqb username "bob" then GetResponse 404 false else GetResponse 200 true.

Lemma two_accounts_arrangement : arrangement ["bob"; "alice"] two_accounts.
Proof.
  unfold arrangement.
  assert (E : elements (monitored_users two_accounts) = ["alice"; "bob"])
    by (vm_compute; reflexivity).
  rewrite E. apply Permutation_swap.
Qed.

Lemma two_accounts_not_empty : monitored_users two_accounts ≠ ∅.
Proof.
  intros H. apply (f_equal (λ X : gset string, bool_decide ("alice" ∈ X))) in H.
  vm_compute in H. discriminate.
Qed.

Lemma uninterrupted_sweep_witness :
  token_truthy two_accounts = true ∧
  monitored_users two_accounts ≠ ∅ ∧
  arrangement ["bob"; "alice"] two_accounts ∧
  let '(st0, pc0, evs0) := loop_enter two_accounts ["bob"; "alice"] in
  let '(s', evs) :=
    run (mkSys st0 pc0 [])
        (ResumeLoop <$> sweep_wakes (user_status two_accounts) ["bob"; "alice"]
                          (alice_back_bob_gone <$> ["bob"; "alice"])) in
  loop s' = LoopSleep ∧
  handlers s' = [] ∧
  monitored_users (store s') = monitored_users two_accounts ∧
  reddit_token (store s') = reddit_token two_accounts ∧
  List.filter is_lookup (evs0 ++ evs) = EvLookup <$> ["bob"; "alice"] ∧
  (∀ username, username ∈ monitored_users two_accounts →
     user_status (store s') !! username
     = Some (lookup_result (alice_back_bob_gone username))) ∧
  (∀ other, other ∉ monitored_users two_accounts →
     user_status (store s') !! other = user_status two_accounts !! other) ∧
  (∀ k username,
     EvNotify k username ∈ (evs0 ++ evs)%list ↔
     username ∈ monitored_users two_accounts ∧
     notified k (status_or_true two_accounts username)
       (lookup_result (alice_back_bob_gone username))).
Proof.
  split; [reflexivity|]. split; [exact two_accounts_not_empty|].
  split; [exact two_accounts_arrangement|].
  exact (uninterrupted_sweep two_accounts [] ["bob"; "alice"] alice_back_bob_gone
           eq_refl two_accounts_not_empty two_accounts_arrangement).
Defined.

(** ** The token *)

(** The token [t] is held and nothing is waiting for a token request. *)
Definition token_settled (t : string) (s : Sys) : Prop :=
  reddit_token (store s) = Some t ∧
  (∀ username rest, loop s ≠ LoopCheck AwaitToken username rest) ∧
  Forall (λ h, ∃ username, h = AddCheck AwaitLookup username) (handlers s).

Definition is_auth_trouble (e : event) : bool :=
  match e with
  | EvTokenRequest | EvLogError _ => true
  | _ => false
  end.

Lemma token_settled_truthy t s : t ≠ "" → token_settled t s → token_truthy (store s) = true.
Proof.
  intros Hne (Ht & _). unfold token_truthy. rewrite Ht.
  by destruct (String.eqb_spec t "").
Qed.

Lemma loop_next_settled t st rest pc' evs :
  t ≠ "" → reddit_token st = Some t →
  loop_next st rest = (pc', evs) →
  (∀ username rest', pc' ≠ LoopCheck AwaitToken username rest') ∧
  List.filter is_auth_trouble evs = [].
Proof.
  intros Hne Ht H. destruct rest as [|u rest']; simpl in H.
  - by injection H as <- <-.
  - unfold check_begin, token_truthy in H. rewrite Ht in H.
    destruct (String.eqb_spec t ""); [done|]. simpl in H. by injection H as <- <-.
Qed.

Lemma monitoring_loop_step_settled t st pc w st1 pc' evs :
  t ≠ "" → reddit_token st = Some t →
  (∀ username rest, pc ≠ LoopCheck AwaitToken username rest) →
  _monitoring_loop_step st pc w = Some (st1, pc', evs) →
  reddit_token st1 = Some t ∧
  (∀ username rest, pc' ≠ LoopCheck AwaitToken username rest) ∧
  List.filter is_auth_trouble evs = [].
Proof.
  intros Hne Ht Hpc H.
  destruct pc as [|c username rest|username b rest|rest]; simpl in H.
  - destruct w; try done. case_decide; [by injection H as <- <- <-|].
    destruct (loop_next st (snapshot st)) as [pc1 evs1] eqn:E. injection H as <- <- <-.
    destruct (loop_next_settled t _ _ _ _ Hne Ht E). done.
  - destruct c; [by destruct (Hpc username rest)|].
    destruct w as [| |get|]; try done. simpl in H.
    destruct (status_or_true st username && negb (lookup_result get));
      [by injection H as <- <- <-|].
    destruct (negb (status_or_true st username) && lookup_result get);
      by injection H as <- <- <-.
  - destruct w; try done. by injection H as <- <- <-.
  - destruct w; try done.
    destruct (loop_next st rest) as [pc1 evs1] eqn:E. injection H as <- <- <-.
    destruct (loop_next_settled t _ _ _ _ Hne Ht E). done.
Qed.

Lemma exec_settled t s a :
  t ≠ "" → token_settled t s →
  token_settled t (exec s a).1 ∧ List.filter is_auth_trouble (exec s a).2 = [].
Proof.
  intros Hne Hs. pose proof (token_settled_truthy t s Hne Hs) as Htok.
  destruct Hs as (Ht & Hpc & Hh).
  destruct a as [args|args| |i w|w]; simpl.
  - destruct args as [|arg args]; simpl; [done|].
    case_decide; simpl; [done|].
    unfold check_begin. rewrite Htok. simpl. split; [|done].
    split_and!; try done. apply Forall_app. split; [done|].
    apply Forall_singleton. by eexists.
  - destruct args as [|arg args]; simpl; [done|]. by case_decide.
  - done.
  - unfold handler_step. destruct (handlers s !! i) as [[c username]|] eqn:Ei; [|done].
    destruct (proj1 (Forall_lookup _ _) Hh i _ Ei) as [u [= -> ->]].
    destruct w as [| |get|]; simpl; try done.
    split; [|done]. split_and!; try done.
    by apply Forall_delete.
  - destruct (_monitoring_loop_step (store s) (loop s) w) as [[[st1 pc'] evs]|] eqn:E; [|done].
    destruct (monitoring_loop_step_settled t _ _ _ _ _ _ Hne Ht Hpc E) as (? & ? & ?).
    done.
Qed.

(** X13: once the bot has started with a token that is not empty, it keeps that
    token under every schedule: it never requests another one, no check of the
    loop is ever logged as failed, and every check goes straight to its
    lookup. *)
Theorem token_is_never_refreshed (t : string) (schedule : list action) :
  t ≠ "" →
  let '(s, evs) := run (boot (Some t)) schedule in
  reddit_token (store s) = Some t ∧
  count_events is_token_request evs = 0%nat ∧
  (∀ username, EvLogError username ∉ evs) ∧
  (∀ username rest, loop s ≠ LoopCheck AwaitToken username rest).
Proof.
  intros Hne.
  assert (H : ∀ s, token_settled t s →
    token_settled t (run s schedule).1 ∧
    List.filter is_auth_trouble (run s schedule).2 = []).
  { induction schedule as [|a schedule IH]; intros s Hs; [done|].
    destruct (exec_settled t s a Hne Hs) as [H1 H2].
    cbn [run]. destruct (exec s a) as [s1 evs1]. simpl in H1, H2.
    destruct (IH s1 H1) as [H3 H4]. destruct (run s1 schedule) as [s2 evs2].
    simpl in *. split; [done|]. by rewrite List.filter_app, H2, H4. }
  destruct (H (boot (Some t))) as [(Ht & Hpc & _) Hevs].
  { unfold token_settled. simpl. split_and!; try done. }
  destruct (run (boot (Some t)) schedule) as [s evs]. simpl in *.
  assert (Hall : ∀ e, e ∈ evs → is_auth_trouble e = false).
  { intros e He. destruct (is_auth_trouble e) eqn:Ee; [|done].
    assert (Hin : e ∈ List.filter is_auth_trouble evs).
    { rewrite list_elem_of_In. apply List.filter_In. by rewrite <- list_elem_of_In. }
    rewrite Hevs in Hin. by apply not_elem_of_nil in Hin. }
  split_and!; try done.
  - apply count_events_none. intros e He. specialize (Hall e He). by destruct e.
  - intros username Hin. by specialize (Hall _ Hin).
Qed.

Lemma token_is_never_refreshed_witness :
  "tok" ≠ "" ∧
  let '(s, evs) := run (boot (Some "tok"))
                     (sweep_in_flight ++ [ResumeLoop (GetDone (GetResponse 401 false))]) in
  reddit_token (store s) = Some "tok" ∧
  count_events is_token_request evs = 0%nat ∧
  (∀ username, EvLogError username ∉ evs) ∧
  (∀ username rest, loop s ≠ LoopCheck AwaitToken username rest).
Proof.
  assert (Hne : "tok" ≠ "") by discriminate.
  split; [exact Hne|].
  exact (token_is_never_refreshed "tok"
           (sweep_in_flight ++ [ResumeLoop (GetDone (GetResponse 401 false))]) Hne).
Defined.

(** ** [/status] *)

Lemma filter_partition_length {A} (f : A → bool) (l : list A) :
  (length (List.filter f l) + length (List.filter (λ x, negb (f x)) l) = length l)%nat.
Proof.
  induction l as [|x l IH]; [done|]. simpl. destruct (f x); simpl; lia.
Qed.

(** X14: in the reply of [/status] the number of active accounts is the number
    of entries of the status map that hold true, and the number of banned
    accounts, computed by subtraction, is the number of entries that hold
    false; neither is negative. *)
Theorem status_counts_meaning (st : State) :
  _status_command st
    = [EvReply (ReplyStatus (Z.of_nat (size (monitored_users st)))
                  (active_count st) (banned_count st))] ∧
  active_count st
    = Z.of_nat (size (filter (λ kv : string * bool, kv.2 = true) (user_status st))) ∧
  banned_count st
    = Z.of_nat (size (filter (λ kv : string * bool, kv.2 = false) (user_status st))) ∧
  0 ≤ active_count st ∧ 0 ≤ banned_count st.
Proof.
  assert (Hcount : ∀ b : bool,
    size (filter (λ kv : string * bool, kv.2 = b) (user_status st))
    = length (List.filter (λ status : bool, bool_decide (status = b))
                (map_to_list (user_status st)).*2)).
  { intros b. rewrite map_filter_alt, <- length_map_to_list.
    erewrite Permutation_length.
    2:{ apply map_to_list_to_map.
        apply (sublist_NoDup _ (map_to_list (user_status st)).*1);
          [apply NoDup_fst_map_to_list|].
        apply fmap_sublist, sublist_filter. }
    induction (map_to_list (user_status st)) as [|[k v] l IH]; [done|].
    rewrite filter_cons. simpl. destruct (decide (v = b)) as [->|Hne].
    - rewrite bool_decide_true by done. simpl. by rewrite IH.
    - rewrite bool_decide_false by done. done. }
  assert (Ha : active_count st
    = Z.of_nat (size (filter (λ kv : string * bool, kv.2 = true) (user_status st)))).
  { unfold active_count. rewrite Hcount. do 2 f_equal.
    apply List.filter_ext. by intros []. }
  assert (Hb : banned_count st
    = Z.of_nat (size (filter (λ kv : string * bool, kv.2 = false) (user_status st)))).
  { unfold banned_count. rewrite Ha, !Hcount.
    pose proof (filter_partition_length (λ status : bool, bool_decide (status = true))
                  (map_to_list (user_status st)).*2) as Hp.
    rewrite length_fmap, length_map_to_list in Hp.
    replace (List.filter (λ status : bool, bool_decide (status = false))
               (map_to_list (user_status st)).*2)
      with (List.filter (λ x : bool, negb (bool_decide (x = true)))
              (map_to_list (user_status st)).*2); [lia|].
    apply List.filter_ext. by intros []. }
  split_and!; [done|done|done|lia|lia].
Qed.

(** X15: as long as only commands have run (no segment of the loop), the two
    counts of [/status] add up to the number of monitored accounts it reports. *)
Theorem status_counts_match_after_commands (tok : option string) (schedule : list action) :
  forallb is_command schedule = true →
  let st := store (run (boot tok) schedule).1 in
  active_count st + banned_count st = total_monitored st.
Proof.
  intros Hc. cbv zeta.
  destruct (status_counts_sum (store (run (boot tok) schedule).1)) as [-> _].
  unfold total_monitored.
  by rewrite <- (commands_keep_status_with_members tok schedule Hc), size_dom.
Qed.

Lemma status_counts_match_after_commands_witness :
  forallb is_command [CmdAdd ["u/bob"]; ResumeHandler 0 nf404; CmdAdd ["alice"];
                      ResumeHandler 0 ok200; CmdRemove ["bob"]] = true ∧
  let st := store (run (boot (Some "tok"))
                     [CmdAdd ["u/bob"]; ResumeHandler 0 nf404; CmdAdd ["alice"];
                      ResumeHandler 0 ok200; CmdRemove ["bob"]]).1 in
  active_count st + banned_count st = total_monitored st.
Proof.
  split; [reflexivity|].
  exact (status_counts_match_after_commands (Some "tok")
           [CmdAdd ["u/bob"]; ResumeHandler 0 nf404; CmdAdd ["alice"];
            ResumeHandler 0 ok200; CmdRemove ["bob"]] eq_refl).
Defined.

(** ** Two sweeps in a row *)

(** On a status map that already holds every answer, a sweep sends its lookups
    and nothing else, and leaves the map as it is. *)
Lemma sweep_on_settled_statuses (todo : list string) :
  ∀ (status : gmap string bool) (gets : list get_outcome),
    length gets = length todo →
    (∀ i username get, todo !! i = Some username → gets !! i = Some get →
                       status !! username = Some (lookup_result get)) →
    sweep_events status todo gets = EvLookup <$> todo ∧
    sweep_statuses status todo gets = status.
Proof.
  induction todo as [|u rest IH]; intros status gets Hlen Hall.
  - by destruct gets.
  - destruct gets as [|g gets']; [done|]. injection Hlen as Hlen.
    pose proof (Hall 0%nat u g eq_refl eq_refl) as Hu.
    assert (Hid : <[u := lookup_result g]> status = status) by by apply insert_id.
    cbn [sweep_events]. unfold sweep_statuses. cbn [zip zip_with foldl].
    fold (sweep_statuses (<[u:=lookup_result g]> status) rest gets').
    rewrite Hid, Hu. simpl.
    destruct (IH status gets' Hlen) as [-> ->].
    { intros i username get Hi Hg. by apply (Hall (S i)). }
    split; [|done]. by destruct (lookup_result g).
Qed.

(** X16: when a sweep that nothing interrupts is followed by another one that
    gets the same answers, each in whatever order it goes through the
    watchlist, the second sweep sends its lookups and no notification, and
    leaves the whole state as the first one left it. *)
Theorem repeated_sweep_is_quiet (st : State) (hs : list handler_pc)
    (todo1 todo2 : list string) (answer : string → get_outcome) :
  token_truthy st = true →
  monitored_users st ≠ ∅ →
  arrangement todo1 st →
  arrangement todo2 st →
  let '(st0, pc0, _) := loop_enter st todo1 in
  let s1 := (run (mkSys st0 pc0 hs)
               (ResumeLoop <$> sweep_wakes (user_status st) todo1 (answer <$> todo1))).1 in
  let '(st2, pc2, evs2) := loop_enter (store s1) todo2 in
  let '(s3, evs3) :=
    run (mkSys st2 pc2 (handlers s1))
        (ResumeLoop <$> sweep_wakes (user_status (store s1)) todo2 (answer <$> todo2)) in
  (evs2 ++ evs3)%list = EvLookup <$> todo2 ∧
  count_events is_notify (evs2 ++ evs3) = 0%nat ∧
  s3 = s1.
Proof.
  intros Htok HM Harr1 Harr2.
  destruct (sweep_entered st hs todo1 (answer <$> todo1) Htok HM)
    as (pc0 & evs0 & evs & -> & -> & _).
  { by rewrite length_fmap. }
  cbn [fst]. set (s1 := mkSys _ LoopSleep hs).
  destruct (sweep_entered (store s1) (handlers s1) todo2 (answer <$> todo2))
    as (pc2 & evs2 & evs3 & -> & -> & ->); [done|done|by rewrite length_fmap|].
  destruct (sweep_on_settled_statuses todo2 (user_status (store s1)) (answer <$> todo2))
    as [-> Hsame].
  { by rewrite length_fmap. }
  { intros i username get Hi Hg.
    rewrite list_lookup_fmap, Hi in Hg. injection Hg as <-.
    apply sweep_statuses_member; [by apply (arrangement_NoDup _ st)|].
    rewrite (arrangement_elem_of _ st) by done.
    rewrite <- (arrangement_elem_of todo2 st) by done.
    apply list_elem_of_lookup. by exists i. }
  split_and!; [done| |].
  - apply count_events_none. intros e [u [-> _]]%list_elem_of_fmap. done.
  - rewrite Hsame. done.
Qed.

Lemma repeated_sweep_is_quiet_witness :
  token_truthy two_accounts = true ∧
  monitored_users two_accounts ≠ ∅ ∧
  arrangement ["bob"; "alice"] two_accounts ∧
  arrangement ["alice"; "bob"] two_accounts ∧
  let '(st0, pc0, _) := loop_enter two_accounts ["bob"; "alice"] in
  let s1 := (run (mkSys st0 pc0 [])
               (ResumeLoop <$> sweep_wakes (user_status two_accounts) ["bob"; "alice"]
                                 (alice_back_bob_gone <$> ["bob"; "alice"]))).1 in
  let '(st2, pc2, evs2) := loop_enter (store s1) ["alice"; "bob"] in
  let '(s3, evs3) :=
    run (mkSys st2 pc2 (handlers s1))
        (ResumeLoop <$> sweep_wakes (user_status (store s1)) ["alice"; "bob"]
                          (alice_back_bob_gone <$> ["alice"; "bob"])) in
  (evs2 ++ evs3)%list = EvLookup <$> ["alice"; "bob"] ∧
  count_events is_notify (evs2 ++ evs3) = 0%nat ∧
  s3 = s1.
Proof.
  assert (Harr : arrangement ["alice"; "bob"] two_accounts).
  { unfold arrangement.
    assert (E : elements (monitored_users two_accounts) = ["alice"; "bob"])
      by (vm_compute; reflexivity).
    by rewrite E. }
  split; [reflexivity|]. split; [exact two_accounts_not_empty|].
  split; [exact two_accounts_arrangement|]. split; [exact Harr|].
  exact (repeated_sweep_is_quiet two_accounts [] ["bob"; "alice"] ["alice"; "bob"]
           alice_back_bob_gone eq_refl two_accounts_not_empty two_accounts_arrangement Harr).
Defined.
